(** * form.go: presentation of struct-derived HTML form fields

    A shallow embedding of the package [form] (file [form.go]): the
    [ValidationError] message renderer, the registration methods
    [SkipField] and [Select], the constructor [New], [Validate], and the
    two rendering loops [Render] and [RenderField].

    Go strings are byte strings and are modelled by [string] (a list of
    [ascii] bytes), runes by [N]; Go maps by stdpp's [gmap]; a method
    with a pointer receiver [*Form] by a computation in a state monad
    over the form that may also panic.  The tables of package
    [unicode] for the runes above the ASCII range are taken as given. *)

From Stdlib Require Import String Ascii List Bool ZArith NArith Lia DecimalString.
From stdpp Require Import gmap strings list fin_maps.

Local Open Scope string_scope.

(** ** Outcomes of Go calls *)

(** A call either returns or panics (a run-time error such as a slice
    bound out of range, or an explicit [panic]). *)
Inductive outcome (A : Type) : Type :=
| Returned (a : A)
| Panicked (why : string).
Arguments Returned {A} a.
Arguments Panicked {A} why.

(** Go's [error] interface, identified with the message it carries. *)
Definition error : Type := string.

(** ** Dynamically typed values

    [interface{}] values as they occur in select maps, in a field's
    [Value] and in a validation failure's [Param]: the comparable basic
    dynamic types. *)
Inductive any : Type :=
| Nil
| Str (s : string)
| Int (n : Z)
| Boolean (b : bool).

#[global] Instance any_eq_dec : EqDecision any.
Proof. solve_decision. Defined.

(** [a == b] on interface values: same dynamic type and same value. *)
Definition any_eqb (a b : any) : bool := bool_decide (a = b).

(** ** Package [unicode]

    The property tables and the title-case table of the package, which
    [strings.Title] consults for runes above the ASCII range. *)
Module Unicode.

Class tables : Type := mk {
  IsLetter : N -> bool;
  IsDigit : N -> bool;
  IsSpace : N -> bool;
  TitleCase : N -> N
}.

(** [unicode.ToTitle]: for ASCII, title case is upper case; above
    ASCII the table decides. *)
Definition ToTitle `{tables} (r : N) : N :=
  if (r <=? 127)%N
  then if ((97 <=? r) && (r <=? 122))%N then (r - 32)%N else r
  else TitleCase r.

End Unicode.

(** ** The part of package [unicode/utf8] behind a [range] over a
    string and behind [strings.Builder.WriteRune] *)
Module Utf8.

Definition RuneError : N := 65533.

Definition between (lo hi b : N) : bool := ((lo <=? b) && (b <=? hi))%N.

(** [utf8.DecodeRuneInString]: the first rune of [s] and its width in
    bytes; bytes that do not start a well-formed UTF-8 sequence give
    [RuneError] with width 1. *)
Definition DecodeRune (s : string) : N * nat :=
  match s with
  | EmptyString => (RuneError, 0)
  | String c0 rest =>
      let s0 := N_of_ascii c0 in
      if (s0 <? 128)%N then (s0, 1)
      else if between 194 223 s0 then
        match rest with
        | String c1 _ =>
            let s1 := N_of_ascii c1 in
            if between 128 191 s1
            then (((s0 - 192) * 64 + (s1 - 128))%N, 2)
            else (RuneError, 1)
        | _ => (RuneError, 1)
        end
      else if between 224 239 s0 then
        let lo := if (s0 =? 224)%N then 160%N else 128%N in
        let hi := if (s0 =? 237)%N then 159%N else 191%N in
        match rest with
        | String c1 (String c2 _) =>
            let s1 := N_of_ascii c1 in
            let s2 := N_of_ascii c2 in
            if between lo hi s1 && between 128 191 s2
            then (((s0 - 224) * 4096 + (s1 - 128) * 64 + (s2 - 128))%N, 3)
            else (RuneError, 1)
        | _ => (RuneError, 1)
        end
      else if between 240 244 s0 then
        let lo := if (s0 =? 240)%N then 144%N else 128%N in
        let hi := if (s0 =? 244)%N then 143%N else 191%N in
        match rest with
        | String c1 (String c2 (String c3 _)) =>
            let s1 := N_of_ascii c1 in
            let s2 := N_of_ascii c2 in
            let s3 := N_of_ascii c3 in
            if between lo hi s1 && between 128 191 s2 && between 128 191 s3
            then (((s0 - 240) * 262144 + (s1 - 128) * 4096
                   + (s2 - 128) * 64 + (s3 - 128))%N, 4)
            else (RuneError, 1)
        | _ => (RuneError, 1)
        end
      else (RuneError, 1)
  end.

(** The runes that [for _, c := range s] visits; [skip] counts the
    bytes of the rune under way that are still to be passed. *)
Fixpoint runes_from (skip : nat) (s : string) : list N :=
  match s with
  | EmptyString => []
  | String _ s' =>
      match skip with
      | S skip' => runes_from skip' s'
      | O => (DecodeRune s).1 :: runes_from ((DecodeRune s).2 - 1) s'
      end
  end.

Definition runes (s : string) : list N := runes_from 0 s.

(** Every byte of [s] is below [utf8.RuneSelf]. *)
Definition is_ascii (s : string) : bool :=
  forallb (fun c => (N_of_ascii c <? 128)%N) (list_ascii_of_string s).

(** [utf8.AppendRune]: the UTF-8 bytes of a rune; surrogates and
    values above [MaxRune] are written as [RuneError]. *)
Definition EncodeRune (r : N) : string :=
  if (r <=? 127)%N then String (ascii_of_N r) EmptyString
  else if (r <=? 2047)%N
  then String (ascii_of_N (192 + r / 64))
         (String (ascii_of_N (128 + r mod 64)) EmptyString)
  else
    let r := if (1114111 <? r)%N || between 55296 57343 r then RuneError else r in
    if (r <=? 65535)%N
    then String (ascii_of_N (224 + r / 4096))
           (String (ascii_of_N (128 + (r / 64) mod 64))
              (String (ascii_of_N (128 + r mod 64)) EmptyString))
    else String (ascii_of_N (240 + r / 262144))
           (String (ascii_of_N (128 + (r / 4096) mod 64))
              (String (ascii_of_N (128 + (r / 64) mod 64))
                 (String (ascii_of_N (128 + r mod 64)) EmptyString))).

End Utf8.

(** ** The part of package [strings] that [form.go] calls *)
Module Strings.

Section Title.

Context `{Unicode.tables}.

(** [isSeparator]: ASCII alphanumerics and underscore are not
    separators, every other ASCII rune is; above ASCII, letters and
    digits are not separators and spaces are. *)
Definition isSeparator (r : N) : bool :=
  if (r <=? 127)%N
  then negb (Utf8.between 48 57 r || Utf8.between 97 122 r
             || Utf8.between 65 90 r || (r =? 95)%N)
  else if Unicode.IsLetter r || Unicode.IsDigit r then false
  else Unicode.IsSpace r.

(** The closure that [Title] hands to [strings.Map]: [prev] is the
    rune seen before. *)
Fixpoint Title_from (prev : N) (rs : list N) : list N :=
  match rs with
  | [] => []
  | r :: rs' =>
      (if isSeparator prev then Unicode.ToTitle r else r) :: Title_from r rs'
  end.

(** [strings.Title(s)]: [strings.Map] decodes the runes of [s], maps
    each one in turn and writes the results as UTF-8. *)
Definition Title (s : string) : string :=
  fold_right (fun r out => Utf8.EncodeRune r +:+ out) EmptyString
    (Title_from 32 (Utf8.runes s)).

End Title.

(** [strings.HasPrefix(s, prefix)]. *)
Fixpoint HasPrefix (s prefix : string) {struct prefix} : bool :=
  match prefix, s with
  | EmptyString, _ => true
  | String _ _, EmptyString => false
  | String p prefix', String c s' => (p =? c)%char && HasPrefix s' prefix'
  end.

(** [strings.Contains(s, substr)]: [substr] starts at some index of
    [s]. *)
Fixpoint Contains (s substr : string) : bool :=
  HasPrefix s substr ||
  match s with
  | EmptyString => false
  | String _ s' => Contains s' substr
  end.

(** The slice expression [s[lo:]] with an [int] bound: a bound outside
    [0 .. len(s)] is a run-time panic. *)
Definition slice_from (s : string) (lo : Z) : outcome string :=
  if ((0 <=? lo) && (lo <=? Z.of_nat (String.length s)))%Z
  then Returned (substring (Z.to_nat lo) (String.length s - Z.to_nat lo) s)
  else Panicked "slice bounds out of range".

End Strings.

(** ** The part of package [fmt] that [form.go] calls *)
Module Fmt.

Definition itoa (n : Z) : string := NilZero.string_of_int (Z.to_int n).

(** The operand of the verb [%s]: a string prints as itself, the
    other dynamic types print as a bad-verb note. *)
Definition verb_s (a : any) : string :=
  match a with
  | Str s => s
  | Nil => "%!s(<nil>)"
  | Int n => "%!s(int=" +:+ itoa n +:+ ")"
  | Boolean b => "%!s(bool=" +:+ (if b then "true" else "false") +:+ ")"
  end.

(** [fmt.Sprint(a)] of one operand. *)
Definition Sprint (a : any) : string :=
  match a with
  | Str s => s
  | Nil => "<nil>"
  | Int n => itoa n
  | Boolean b => if b then "true" else "false"
  end.

End Fmt.

(** ** Validation failures *)
Module ValidationError.

Record t : Type := mk {
  Field : string;
  Value : string;
  Type_ : string;
  Override : string;
  Param : any
}.

(** [func (v *ValidationError) Error() string] *)
Definition Error `{Unicode.tables} (v : t) : string :=
  if (0 <? String.length (Override v))%nat then Override v
  else
    let out := Strings.Title (Type_ v) in
    if String.eqb (Type_ v) "email" then "Invalid Email"
    else if String.eqb (Type_ v) "len"
         then "Invalid Length,needs: " +:+ Fmt.verb_s (Param v)
    else if String.eqb (Type_ v) "alpha" then "Letters Only"
    else out.

End ValidationError.

(** ** Go values as reflection sees them

    The [interface{}] arguments of [Render], [RenderField] and
    [Validate] are a dynamic type together with the data stored under
    it.  A struct type lists its members by name, tag and type; a
    pointer type points to a struct and its data may be nil.  The
    basic kinds are the string, boolean and numeric ones. *)
Inductive kind : Type := KString | KBool | KNumber.

#[local] Set Warnings "-register-all".

Inductive gotype : Type :=
| TBasic (k : kind)
| TStruct (members : list (string * string * gotype))
| TPtr (pointee : list (string * string * gotype)).

Inductive godata : Type :=
| DBasic (a : any)
| DStruct (members : list godata)
| DPtr (target : option (list godata)).

Record govalue : Type := mkValue { type_of : gotype; data_of : godata }.

(** The zero value of a type: [""], [false], [0], a struct of zero
    members, the nil pointer. *)
Fixpoint zero (ty : gotype) : godata :=
  match ty with
  | TBasic KString => DBasic (Str "")
  | TBasic KBool => DBasic (Boolean false)
  | TBasic KNumber => DBasic (Int 0)
  | TStruct members => DStruct (map (fun d => zero d.2) members)
  | TPtr _ => DPtr None
  end.

(** ** Field descriptors *)
Module Field.

(** Modelled from the spec: the struct type [field] is declared in a
    source file that is not under src/.  Its members are the ones the
    data model of the spec lists, with the Go types that the
    assignments in [Render] and the built-in template force:
    [Items] receives a [map[string]interface{}], [SelectValue] a map
    key, [Errors] is appended strings, [Value] is compared with an
    [interface{}] and [SelectType] is read by the template. *)
Record t : Type := mk {
  Name : string;
  ID : string;
  Label : string;
  Placeholder : string;
  Footer : string;
  Type_ : string;
  Value : any;
  Items : gmap string any;
  SelectValue : string;
  SelectType : string;
  Errors : list string;
  Attrs : string;
  Prefix : string
}.

Definition set_Prefix (p : string) (f : t) : t :=
  mk (Name f) (ID f) (Label f) (Placeholder f) (Footer f) (Type_ f)
     (Value f) (Items f) (SelectValue f) (SelectType f) (Errors f)
     (Attrs f) p.

Definition set_Items (it : gmap string any) (f : t) : t :=
  mk (Name f) (ID f) (Label f) (Placeholder f) (Footer f) (Type_ f)
     (Value f) it (SelectValue f) (SelectType f) (Errors f)
     (Attrs f) (Prefix f).

Definition set_SelectValue (v : string) (f : t) : t :=
  mk (Name f) (ID f) (Label f) (Placeholder f) (Footer f) (Type_ f)
     (Value f) (Items f) v (SelectType f) (Errors f)
     (Attrs f) (Prefix f).

Definition set_Errors (es : list string) (f : t) : t :=
  mk (Name f) (ID f) (Label f) (Placeholder f) (Footer f) (Type_ f)
     (Value f) (Items f) (SelectValue f) (SelectType f) es
     (Attrs f) (Prefix f).

End Field.

(** ** External collaborators held by a form *)

(** [*template.Template]: executing a parsed template on a field either
    yields the written text or an error. *)
Module Template.
Record t : Type := mk { Execute : Field.t -> string + error }.
End Template.

(** [validator.FieldError], as far as [Validate] reads it. *)
Module FieldError.
Record t : Type := mk {
  Field : string;
  Value : any;
  Tag : string;
  Param : string
}.
End FieldError.

(** The non-nil errors that the validator's [Struct] method returns. *)
Inductive struct_error : Type :=
| InvalidValidationError
| ValidationErrors (errs : list FieldError.t).

Module Validator.
Record t : Type := mk { Struct : govalue -> option struct_error }.
End Validator.

(** ** The form descriptor *)
Module Form.

(** [type Form struct]; a nil map reads like an empty one, so both
    are [∅].  The decoder handle is only used by [DecodePost]. *)
Record t : Type := mk {
  Tpl : option Template.t;
  Validator : option Validator.t;
  selectMap : gmap string (gmap string any);
  Action : string;
  Method : string;
  Prefix : string;
  Skip : list string;
  Errors : gmap string (list string)
}.

Definition set_Skip (sk : list string) (f : t) : t :=
  mk (Tpl f) (Validator f) (selectMap f) (Action f) (Method f)
     (Prefix f) sk (Errors f).

Definition set_selectMap (sm : gmap string (gmap string any)) (f : t) : t :=
  mk (Tpl f) (Validator f) sm (Action f) (Method f)
     (Prefix f) (Skip f) (Errors f).

End Form.

(** ** Methods on [*Form]: a state monad over the form, with panics *)
Definition M (A : Type) : Type := Form.t -> outcome (A * Form.t).

#[global] Instance M_ret : MRet M := fun A a f => Returned (a, f).

#[global] Instance M_bind : MBind M := fun A B k m f =>
  match m f with
  | Returned (a, f') => k a f'
  | Panicked why => Panicked why
  end.

(** Read a member of the receiver. *)
Definition gets {A : Type} (proj : Form.t -> A) : M A :=
  fun f => Returned (proj f, f).

(** Assign to the receiver. *)
Definition modify (upd : Form.t -> Form.t) : M unit :=
  fun f => Returned (tt, upd f).

Definition panic {A : Type} (why : string) : M A :=
  fun _ => Panicked why.

(** Run a call that does not touch the receiver. *)
Definition lift {A : Type} (o : outcome A) : M A :=
  fun f => match o with
           | Returned a => Returned (a, f)
           | Panicked why => Panicked why
           end.

(** A method that only reads its receiver: whenever it returns, the
    form is the one it was called on. *)
Definition read_only {A : Type} (m : M A) : Prop :=
  forall f a f', m f = Returned (a, f') -> f' = f.

(** [func (f *Form) SkipField(skip string)] *)
Definition SkipField (skip : string) : M unit :=
  modify (fun f => Form.set_Skip (Form.Skip f ++ [skip]) f).

(** [func (f *Form) Select(nm string, mp map[string]interface{})] *)
Definition Select (nm : string) (mp : gmap string any) : M unit :=
  modify (fun f => Form.set_selectMap (<[nm := mp]> (Form.selectMap f)) f).

(** What the validator's [Struct] accepts: a struct, or a pointer that
    is not nil to one. *)
Definition is_struct (v : govalue) : bool :=
  match type_of v, data_of v with
  | TStruct _, _ => true
  | TPtr _, DPtr (Some _) => true
  | _, _ => false
  end.

(** [func (f *Form) Validate(holder any) (bool, []ValidationError)];
    a nil slice and an empty one are both [[]].  On a nil validator
    the call [f.Validator.Struct(holder)] still refuses a holder that
    is not a struct with its [*InvalidValidationError], and
    dereferences the nil receiver only after that. *)
Definition Validate (holder : govalue) : M (bool * list ValidationError.t) :=
  vd ← gets Form.Validator;
  match vd with
  | None =>
      if is_struct holder then panic "nil pointer dereference"
      else mret (false, [])
  | Some vd =>
      match Validator.Struct vd holder with
      | Some InvalidValidationError => mret (false, [])
      | Some (ValidationErrors errs) =>
          mret (false,
                map (fun err =>
                       ValidationError.mk (FieldError.Field err)
                         (Fmt.Sprint (FieldError.Value err))
                         (FieldError.Tag err) ""
                         (Str (FieldError.Param err))) errs)
      | None => mret (true, [])
      end
  end.

(** ** Rendering *)

(** The inner loop over [f.Skip] of [Render] and [RenderField], which
    computes the local [dump] for the field called [name]. *)
Fixpoint skip_dump (skip : list string) (name : string) : outcome bool :=
  match skip with
  | [] => Returned false
  | sv :: rest =>
      if String.eqb sv name then Returned true
      else
        match Strings.slice_from sv (Z.of_nat (String.length sv) - 1) with
        | Panicked why => Panicked why
        | Returned last =>
            if String.eqb last "."
            then if Strings.Contains name sv then Returned true
                 else skip_dump rest name
            else skip_dump rest name
        end
  end.

(** The loop [for v, k := range it] that sets [field.SelectValue],
    over the pairs of [it] in the order the iteration visits them. *)
Definition select_loop (visited : list (string * any)) (field : Field.t)
  : Field.t :=
  fold_left
    (fun fld '(v, k) =>
       if any_eqb k (Field.Value fld) then Field.set_SelectValue v fld
       else fld)
    visited field.

(** The loop [for _, ee := range errs] that appends to [field.Errors]. *)
Definition attach_errors `{Unicode.tables} (errs : list ValidationError.t)
  (field : Field.t) : Field.t :=
  fold_left
    (fun fld ee =>
       if String.eqb (ValidationError.Field ee) (Field.Name fld)
       then Field.set_Errors (Field.Errors fld ++ [ValidationError.Error ee]) fld
       else fld)
    errs field.

Section Package.

Context `{Unicode.tables}.

(** Package-level variables. *)
Variable basetmpl : string.
Variable basepath : string.

(** The standard library and the packages imported by [form.go]:
    [ioutil.ReadFile], [filepath.Join], the parse of a template text
    with the function maps of [New] installed, [validator.New]. *)
Variable ReadFile : string -> string + error.
Variable Join : string -> string -> string.
Variable Parse : string -> Template.t + error.
Variable validator_New : Validator.t.

(** [fields(v)], declared in a source file that is not under src/:
    the extracted field sequence of [v], or a panic when [v] is not a
    struct. *)
Variable fields : govalue -> outcome (list Field.t).

(** The order in which a [range] statement visits a map, which Go
    leaves unspecified. *)
Variable range_map : gmap string any -> list (string * any).

(** The path [p] that [New] reads: the first argument, or the empty
    path, under [basepath] when one is set. *)
Definition New_path (pth : list string) : string :=
  let p := match pth with p0 :: _ => p0 | [] => "" end in
  if (0 <? String.length basepath)%nat then Join basepath p else p.

(** [func New(pth ...string)], which returns a [*Form] and an
    [error]: the pointer is [None] when nil, the error is [None] when
    nil, and [template.Must] panics on a parse error. *)
Definition New (pth : list string) : outcome (option Form.t * option error) :=
  let read := ReadFile (New_path pth) in
  let errf := match read with inr e => Some e | inl _ => None end in
  let frmstr := match read with inr _ => basetmpl | inl frm => frm end in
  match Parse frmstr with
  | inr e => Panicked e
  | inl tpl =>
      Returned (Some (Form.mk (Some tpl) (Some validator_New) ∅ "" "" "" [] ∅),
                errf)
  end.

(** The body of the loop over the fields, from [field.Prefix =
    f.Prefix] up to the call of the template; the text is the same in
    [Render] and in [RenderField].  [None] is the [continue] taken
    when [dump] is set. *)
Definition present (field : Field.t) (errs : list ValidationError.t)
  : M (option Field.t) :=
  prefix ← gets Form.Prefix;
  let field := Field.set_Prefix prefix field in
  skip ← gets Form.Skip;
  dump ← lift (skip_dump skip (Field.Name field));
  if (dump : bool) then mret None
  else
    sm ← gets Form.selectMap;
    let field :=
      if String.eqb (Field.Type_ field) "select"
         || String.eqb (Field.Type_ field) "checkbox"
      then match sm !! Field.Name field with
           | Some it => select_loop (range_map it) (Field.set_Items it field)
           | None => field
           end
      else field in
    mret (Some (attach_errors errs field)).

(** [f.Tpl.Execute(&sb, field)] followed by the error check: [inr]
    is the early [return "", err]. *)
Definition execute (field : Field.t) : M (string + error) :=
  tpl ← gets Form.Tpl;
  match tpl with
  | None => panic "nil pointer dereference"
  | Some tpl => mret (Template.Execute tpl field)
  end.

(** The loop of [Render] over the extracted fields; [html] is the
    text accumulated so far. *)
Fixpoint Render_range (fs : list Field.t) (errs : list ValidationError.t)
  (html : string) : M (string * option error) :=
  match fs with
  | [] => mret (html, None)
  | field :: rest =>
      shown ← present field errs;
      match shown with
      | None => Render_range rest errs html
      | Some field =>
          out ← execute field;
          match out with
          | inr err => mret ("", Some err)
          | inl sb => Render_range rest errs (html +:+ sb)
          end
      end
  end.

(** [func (f *Form) Render(v interface{}, errs_raw ...[]ValidationError)
    (template.HTML, error)] *)
Definition Render (v : govalue) (errs_raw : list (list ValidationError.t))
  : M (string * option error) :=
  fs ← lift (fields v);
  let errs := match errs_raw with e0 :: _ => e0 | [] => [] end in
  Render_range fs errs "".

(** The loop of [RenderField]: as in [Render], after the test
    [field.Name != field_name]. *)
Fixpoint RenderField_range (fs : list Field.t) (field_name : string)
  (errs : list ValidationError.t) (html : string)
  : M (string * option error) :=
  match fs with
  | [] => mret (html, None)
  | field :: rest =>
      if negb (String.eqb (Field.Name field) field_name)
      then RenderField_range rest field_name errs html
      else
        shown ← present field errs;
        match shown with
        | None => RenderField_range rest field_name errs html
        | Some field =>
            out ← execute field;
            match out with
            | inr err => mret ("", Some err)
            | inl sb => RenderField_range rest field_name errs (html +:+ sb)
            end
        end
  end.

(** [func (f *Form) RenderField(v interface{}, field_name string,
    errs_raw ...[]ValidationError) (template.HTML, error)] *)
Definition RenderField (v : govalue) (field_name : string)
  (errs_raw : list (list ValidationError.t)) : M (string * option error) :=
  fs ← lift (fields v);
  let errs := match errs_raw with e0 :: _ => e0 | [] => [] end in
  RenderField_range fs field_name errs "".

End Package.

(** ** Field extraction *)
Module Extraction.

(** The value of a tag option: the marker of a flag written without
    [=], or the text that follows [=]. *)
Inductive option_value : Type :=
| Present
| Given (s : string).

Definition is_space (c : ascii) : bool :=
  ((c =? " ") || (c =? "009") || (c =? "010") || (c =? "013"))%char.

Fixpoint trim_left (s : string) : string :=
  match s with
  | EmptyString => EmptyString
  | String c s' => if is_space c then trim_left s' else s
  end.

Fixpoint trim_right (s : string) : string :=
  match s with
  | EmptyString => EmptyString
  | String c s' =>
      match trim_right s' with
      | EmptyString => if is_space c then EmptyString else String c EmptyString
      | kept => String c kept
      end
  end.

Definition trim (s : string) : string := trim_right (trim_left s).

(** The pieces of [s] between occurrences of [sep]. *)
Fixpoint split_on (sep : ascii) (s : string) : list string :=
  match s with
  | EmptyString => [EmptyString]
  | String c s' =>
      if (c =? sep)%char then EmptyString :: split_on sep s'
      else match split_on sep s' with
           | piece :: pieces => String c piece :: pieces
           | [] => [String c EmptyString]
           end
  end.

(** [s] cut at its first [sep], when it has one. *)
Fixpoint cut (sep : ascii) (s : string) : option (string * string) :=
  match s with
  | EmptyString => None
  | String c s' =>
      if (c =? sep)%char then Some (EmptyString, s')
      else match cut sep s' with
           | Some (before, after) => Some (String c before, after)
           | None => None
           end
  end.

(** Modelled from the spec: the tag parser of section 4.1, which is
    in a source file that is not under src/.  Options are separated
    by [;], a key from its value by [=], an option without [=] is a
    flag, white space around keys and values is trimmed, and the
    empty tag gives the empty map. *)
Definition parse_tag (tag : string) : gmap string option_value :=
  fold_left
    (fun opts piece =>
       match cut "=" piece with
       | Some (key, value) => <[trim key := Given (trim value)]> opts
       | None =>
           if String.eqb (trim piece) "" then opts
           else <[trim piece := Present]> opts
       end)
    (split_on ";" tag) ∅.

(** Modelled from the spec: the name resolver of section 4.2, which
    is in a source file that is not under src/.  A top-level member
    is called by its own name, a nested one by the dot-joined names
    of its ancestors, a dot, and its own name. *)
Definition resolve (ancestry : list string) (member_name : string) : string :=
  match ancestry with
  | [] => member_name
  | _ => String.concat "." ancestry +:+ "." +:+ member_name
  end.

Definition text_of (opts : gmap string option_value) (key default : string)
  : string :=
  match opts !! key with
  | Some (Given s) => s
  | _ => default
  end.

(** Modelled from the spec: the default input type of a declared data
    type in section 4.3, text for strings, checkbox for booleans and
    number for numeric members. *)
Definition infer_type (k : kind) : string :=
  match k with
  | KString => "text"
  | KBool => "checkbox"
  | KNumber => "number"
  end.

(** Modelled from the spec: the [Value] of section 3, the content of
    a leaf member as a string, empty when the content is absent or
    zero. *)
Definition stringify (d : godata) : string :=
  match d with
  | DBasic (Str s) => s
  | DBasic (Int n) => if (n =? 0)%Z then "" else Fmt.itoa n
  | DBasic (Boolean b) => if b then "true" else ""
  | _ => ""
  end.

Definition members_of (d : godata) : list godata :=
  match d with
  | DStruct members => members
  | _ => []
  end.

(** The data of a value fits its type: basic data of the declared
    kind, one datum per declared member of a struct, a nil pointer or a
    pointer to fitting members. *)
Fixpoint has_type (ty : gotype) (d : godata) {struct ty} : bool :=
  let have_types :=
    fix have_types (members : list (string * string * gotype))
      (ds : list godata) {struct members} : bool :=
      match members, ds with
      | [], [] => true
      | (_, _, t) :: members', d' :: ds' => has_type t d' && have_types members' ds'
      | _, _ => false
      end in
  match ty, d with
  | TBasic KString, DBasic (Str _) => true
  | TBasic KBool, DBasic (Boolean _) => true
  | TBasic KNumber, DBasic (Int _) => true
  | TStruct members, DStruct ds => have_types members ds
  | TPtr _, DPtr None => true
  | TPtr pointee, DPtr (Some target) => have_types pointee target
  | _, _ => false
  end.

Fixpoint have_types (members : list (string * string * gotype))
  (ds : list godata) : bool :=
  match members, ds with
  | [], [] => true
  | (_, _, t) :: members', d :: ds' => has_type t d && have_types members' ds'
  | _, _ => false
  end.

Section Extractor.

(** What the spec leaves to the implementation: the humanized form
    of a member name, the sanitized form of a field name, and the
    tag marker that opts a member out of the form. *)
Variable humanize : string -> string.
Variable sanitize : string -> string.
Variable excluded : gmap string option_value -> bool.

(** Modelled from the spec: the field of a leaf member in section
    4.3, with its resolved name, the label, placeholder, footer, type
    and attributes that the tag gives or their defaults, and the
    stringified content. *)
Definition leaf (ancestry : list string) (name : string)
  (opts : gmap string option_value) (k : kind) (d : godata) : Field.t :=
  let nm := resolve ancestry name in
  Field.mk nm (sanitize nm)
    (text_of opts "label" (humanize name))
    (text_of opts "placeholder" (humanize name))
    (text_of opts "footer" "")
    (text_of opts "type" (infer_type k))
    (Str (stringify d)) ∅ "" "" []
    (text_of opts "attrs" "") "".

(** Modelled from the spec: the field extractor of section 4.3
    (the function [fields] of the package), which is in a source
    file that is not under src/.  [walk] handles one declared
    member: nothing for an opted-out member, one field for a leaf,
    and for a struct or a pointer to a struct the fields of its
    members under the longer ancestry, a nil pointer being walked
    through the zero value of its pointee type. *)
Fixpoint walk (ancestry : list string) (name tag : string) (ty : gotype)
  (d : godata) {struct ty} : list Field.t :=
  let opts := parse_tag tag in
  if excluded opts then []
  else
    let walk_members :=
      fix walk_members (members : list (string * string * gotype))
        (ds : list godata) {struct members} : list Field.t :=
        match members, ds with
        | (n, tg, t) :: members', d' :: ds' =>
            (walk (ancestry ++ [name]) n tg t d' ++ walk_members members' ds')%list
        | _, _ => []
        end in
    match ty with
    | TBasic k => [leaf ancestry name opts k d]
    | TStruct members => walk_members members (members_of d)
    | TPtr pointee =>
        match d with
        | DPtr (Some target) => walk_members pointee target
        | _ => walk_members pointee (members_of (zero (TStruct pointee)))
        end
    end.

(** The members of a record, in declaration order. *)
Fixpoint walk_members (ancestry : list string)
  (members : list (string * string * gotype)) (ds : list godata)
  : list Field.t :=
  match members, ds with
  | (n, tg, t) :: members', d :: ds' =>
      (walk ancestry n tg t d ++ walk_members ancestry members' ds')%list
  | _, _ => []
  end.

(** Modelled from the spec: [extract(record)] of section 4.3; a
    value that is not a record is the fatal programmer error. *)
Definition extract (v : govalue) : outcome (list Field.t) :=
  match type_of v with
  | TStruct members =>
      Returned (walk_members [] members (members_of (data_of v)))
  | TPtr pointee =>
      match data_of v with
      | DPtr (Some target) => Returned (walk_members [] pointee target)
      | _ => Returned (walk_members [] pointee
                         (members_of (zero (TStruct pointee))))
      end
  | TBasic _ => Panicked "invalid value; only structs are supported"
  end.

End Extractor.

End Extraction.

(** ** Binding and decoding *)

(** [*http.Request], as far as [DecodePost] reads it. *)
Module Request.
Record t : Type := mk { Method : string; Body : string }.
End Request.

(** [*schema.Decoder]: decoding posted values into a holder gives the
    holder as it is afterwards, and an error or nil. *)
Module Decoder.
Record t : Type := mk {
  Decode : govalue -> gmap string (list string) -> govalue * option error
}.
End Decoder.

(** [var ErrInvalidMethod = errors.New("Invalid Method")] *)
Definition ErrInvalidMethod : error := "Invalid Method".

(** [http.MethodPost] *)
Definition MethodPost : string := "POST".

Section Collaborators.

Context `{Unicode.tables}.

(** [copier.Copy(to, from)]: the destination as it is afterwards, and
    an error or nil. *)
Variable Copy : govalue -> govalue -> govalue * option error.

(** [req.ParseForm()] followed by the read of [req.PostForm]. *)
Variable ParseForm : Request.t -> gmap string (list string).

Variable fields : govalue -> outcome (list Field.t).
Variable range_map : gmap string any -> list (string * any).

(** [func (f *Form) RenderBind(from interface{}, to interface{},
    errs ...[]ValidationError) (template.HTML, error)]; the error of
    the copy is dropped. *)
Definition RenderBind (from to : govalue)
  (errs : list (list ValidationError.t)) : M (string * option error) :=
  let copied := fst (Copy to from) in
  Render fields range_map copied errs.

(** [func (f *Form) DecodePost(req *http.Request, holder any) error].
    The member [f.Decoder], which [Form.t] leaves out, is the argument
    [decoder], [None] when nil; the result is the holder as the call
    leaves it, and the returned error. *)
Definition DecodePost (decoder : option Decoder.t) (req : Request.t)
  (holder : govalue) : govalue * option error :=
  if String.eqb (Request.Method req) MethodPost
  then match decoder with
       | Some d =>
           let '(decoded, derr) := Decoder.Decode d holder (ParseForm req) in
           match derr with
           | Some e => (decoded, Some e)
           | None => (decoded, None)
           end
       | None => (holder, Some ErrInvalidMethod)
       end
  else (holder, Some ErrInvalidMethod).

End Collaborators.

(** ** Sample data *)

(** Tables that know no letter, digit, space or case above ASCII. *)
Definition sample_tables : Unicode.tables :=
  Unicode.mk (fun _ => false) (fun _ => false) (fun _ => false) (fun r => r).

(** A field as extraction leaves it: no items, no errors, no prefix. *)
Definition sample_field (name type_ : string) (value : any) : Field.t :=
  Field.mk name name name name "" type_ value ∅ "" "" [] "" "".

(** A template that writes the name attribute of a field. *)
Definition sample_template : Template.t :=
  Template.mk (fun field => inl ("<input name=" +:+ Field.Name field +:+ ">")).

(** A form with the sample template and the given prefix, skip list
    and select maps. *)
Definition sample_form (prefix : string) (skip : list string)
  (sm : gmap string (gmap string any)) : Form.t :=
  Form.mk (Some sample_template) None sm "" "" prefix skip ∅.

(** A form whose validator gives the same answer for every record. *)
Definition sample_validating_form (answer : option struct_error) : Form.t :=
  Form.mk None (Some (Validator.mk (fun _ => answer))) ∅ "" "" "" [] ∅.

(** The record types of the introduction of the package: a customer
    with a pointer to an address. *)
Definition sample_address : list (string * string * gotype) :=
  [("Street1", "label=Street", TBasic KString);
   ("City", "", TBasic KString);
   ("Zip", "label=Postal Code", TBasic KNumber)].

Definition sample_customer : gotype :=
  TStruct [("Name", "", TBasic KString); ("Address", "", TPtr sample_address)].

(** A template that fails on fields of type [email], and a form that
    holds it. *)
Definition sample_failing_template : Template.t :=
  Template.mk (fun field =>
    if String.eqb (Field.Type_ field) "email" then inr "no input for email"
    else inl ("<input name=" +:+ Field.Name field +:+ ">")).

Definition sample_failing_form : Form.t :=
  Form.mk (Some sample_failing_template) None ∅ "" "" "" [] ∅.

(** * Properties *)

Ltac run_method :=
  unfold mbind, M_bind, mret, M_ret, gets, modify, lift, panic in *.

Create HintDb read_only.

Section PackageProperties.

Context {tables : Unicode.tables}.

(** ** Running a method *)

Lemma read_only_ret {A : Type} (a : A) : read_only (mret a).
Proof. intros f a' f' H. run_method. congruence. Qed.

Lemma read_only_gets {A : Type} (proj : Form.t -> A) : read_only (gets proj).
Proof. intros f a f' H. run_method. congruence. Qed.

Lemma read_only_lift {A : Type} (o : outcome A) : read_only (lift o).
Proof. intros f a f' H. run_method. destruct o; congruence. Qed.

Lemma read_only_panic {A : Type} (why : string) : read_only (panic (A := A) why).
Proof. intros f a f' H. run_method. discriminate. Qed.

Lemma read_only_bind {A B : Type} (m : M A) (k : A -> M B) :
  read_only m -> (forall a, read_only (k a)) -> read_only (m ≫= k).
Proof.
  intros Hm Hk f b f' H. run_method.
  destruct (m f) as [[a f1]|why] eqn:Em; [|discriminate].
  apply Hm in Em. subst f1. by apply Hk in H.
Qed.

#[local] Hint Resolve read_only_ret read_only_gets read_only_lift
  read_only_panic : read_only.

(** ** Strings *)

Lemma append_cons (c : ascii) (s t : string) :
  String c s +:+ t = String c (s +:+ t).
Proof. reflexivity. Qed.

Lemma append_nil_r (s : string) : s +:+ "" = s.
Proof.
  induction s as [|c s IH]; [reflexivity|]. by rewrite append_cons, IH.
Qed.

Lemma length_append (s t : string) :
  String.length (s +:+ t) = String.length s + String.length t.
Proof.
  induction s as [|c s IH]; [reflexivity|].
  rewrite append_cons. simpl. by rewrite IH.
Qed.

Lemma HasPrefix_spec (s prefix : string) :
  Strings.HasPrefix s prefix = true <-> exists rest, s = prefix +:+ rest.
Proof.
  revert s. induction prefix as [|p prefix IH]; intros s; simpl.
  - split; [intros _; by exists s | done].
  - destruct s as [|c s]; simpl.
    + split; [done | intros [rest H]; discriminate].
    + rewrite andb_true_iff, Ascii.eqb_eq, IH. split.
      * intros [-> [rest ->]]. by exists rest.
      * intros [rest H]. injection H as -> ->. split; [done | by exists rest].
Qed.

Lemma Contains_spec (s substr : string) :
  Strings.Contains s substr = true <->
  exists before after, s = before +:+ substr +:+ after.
Proof.
  induction s as [|c s IH].
  - simpl. rewrite orb_false_r, HasPrefix_spec. split.
    + intros [rest H]. by exists "", rest.
    + intros [before [after H]]. destruct before; [by exists after|discriminate].
  - change (Strings.Contains (String c s) substr)
      with (Strings.HasPrefix (String c s) substr || Strings.Contains s substr).
    rewrite orb_true_iff, HasPrefix_spec, IH. split.
    + intros [[rest H] | [before [after H]]].
      * by exists "", rest.
      * exists (String c before), after. simpl. by rewrite H.
    + intros [before [after H]]. destruct before as [|b before].
      * left. by exists after.
      * right. simpl in H. injection H as -> ->. by exists before, after.
Qed.

Lemma HasPrefix_Contains (s prefix : string) :
  Strings.HasPrefix s prefix = true -> Strings.Contains s prefix = true.
Proof. intros H. destruct s; simpl; by rewrite H. Qed.

(** ** Messages of validation failures *)

(** C5: the rendered message of a validation failure is its override
    string whenever that string is not empty; without an override it is
    the fixed phrase of the kinds [email], [len] (followed by the
    failure's parameter as [%s] prints it, the parameter itself when it
    is a string) and [alpha]; for every other kind it is the title-cased
    kind. *)
Theorem Error_message (v : ValidationError.t) :
  (ValidationError.Override v <> "" ->
   ValidationError.Error v = ValidationError.Override v) /\
  (ValidationError.Override v = "" ->
   (ValidationError.Type_ v = "email" ->
    ValidationError.Error v = "Invalid Email") /\
   (ValidationError.Type_ v = "len" ->
    ValidationError.Error v
    = "Invalid Length,needs: " +:+ Fmt.verb_s (ValidationError.Param v) /\
    forall param, ValidationError.Param v = Str param ->
      ValidationError.Error v = "Invalid Length,needs: " +:+ param) /\
   (ValidationError.Type_ v = "alpha" ->
    ValidationError.Error v = "Letters Only") /\
   (ValidationError.Type_ v <> "email" ->
    ValidationError.Type_ v <> "len" ->
    ValidationError.Type_ v <> "alpha" ->
    ValidationError.Error v = Strings.Title (ValidationError.Type_ v))).
Proof.
  destruct v as [fld val ty ov prm]; unfold ValidationError.Error; simpl.
  split.
  - intros Hov. destruct ov; [done | reflexivity].
  - intros ->. simpl. split; [|split; [|split]].
    + by intros ->.
    + intros ->. split; [done | by intros param ->].
    + by intros ->.
    + intros He Hl Ha.
      apply String.eqb_neq in He, Hl, Ha. by rewrite He, Hl, Ha.
Qed.

(** ** The loops over the select map and over the failures *)

Lemma select_loop_cons (v : string) (k : any) (visited : list (string * any))
  (field : Field.t) :
  select_loop ((v, k) :: visited) field
  = select_loop visited
      (if any_eqb k (Field.Value field) then Field.set_SelectValue v field
       else field).
Proof. reflexivity. Qed.

(** Only [SelectValue] is assigned by the loop. *)
Lemma select_loop_frame (visited : list (string * any)) (field : Field.t) :
  select_loop visited field
  = Field.set_SelectValue (Field.SelectValue (select_loop visited field)) field.
Proof.
  revert field. induction visited as [|[v k] visited IH]; intros field.
  - by destruct field.
  - rewrite select_loop_cons. destruct (any_eqb k (Field.Value field)).
    + rewrite IH at 1. by destruct field.
    + apply IH.
Qed.

(** The label left in [SelectValue] is the key of the last visited
    entry whose value equals the field's [Value], if there is one. *)
Lemma select_loop_SelectValue (visited : list (string * any)) (field : Field.t) :
  Field.SelectValue (select_loop visited field)
  = default (Field.SelectValue field)
      (fst <$> last (filter (fun p => p.2 = Field.Value field) visited)).
Proof.
  revert field. induction visited as [|[v k] visited IH]; intros field.
  - reflexivity.
  - rewrite select_loop_cons. unfold any_eqb. case_bool_decide as Hk.
    + rewrite IH, filter_cons_True by done. rewrite last_cons. simpl.
      by destruct (last _).
    + by rewrite IH, filter_cons_False.
Qed.

Lemma select_loop_unique (range_map : gmap string any -> list (string * any))
  (it : gmap string any) (field : Field.t) (label : string) :
  range_map it ≡ₚ map_to_list it ->
  it !! label = Some (Field.Value field) ->
  (forall other, it !! other = Some (Field.Value field) -> other = label) ->
  Field.SelectValue (select_loop (range_map it) field) = label.
Proof.
  intros Hperm Hlabel Huniq. rewrite select_loop_SelectValue.
  destruct (last _) as [[v k]|] eqn:Hlast; simpl.
  - assert (Hin : (v, k) ∈ filter (fun p => p.2 = Field.Value field) (range_map it)).
    { apply last_Some in Hlast as [l' ->]. set_solver. }
    apply list_elem_of_filter in Hin as [Hk Hin]. simpl in Hk. subst k.
    rewrite Hperm in Hin. apply elem_of_map_to_list in Hin. by apply Huniq.
  - exfalso.
    assert (Hin : (label, Field.Value field)
                  ∈ filter (fun p => p.2 = Field.Value field) (range_map it)).
    { apply list_elem_of_filter. split; [done|].
      rewrite Hperm. by apply elem_of_map_to_list. }
    apply last_None in Hlast. rewrite Hlast in Hin. by apply elem_of_nil in Hin.
Qed.

Lemma select_loop_no_match (range_map : gmap string any -> list (string * any))
  (it : gmap string any) (field : Field.t) :
  range_map it ≡ₚ map_to_list it ->
  (forall label, it !! label <> Some (Field.Value field)) ->
  select_loop (range_map it) field = field.
Proof.
  intros Hperm Hnone. rewrite select_loop_frame, select_loop_SelectValue.
  destruct (last _) as [[v k]|] eqn:Hlast; simpl; [exfalso | by destruct field].
  apply last_Some in Hlast as [l' Hl'].
  assert (Hin : (v, k) ∈ filter (fun p => p.2 = Field.Value field) (range_map it))
    by (rewrite Hl'; set_solver).
  apply list_elem_of_filter in Hin as [Hk Hin]. simpl in Hk. subst k.
  rewrite Hperm in Hin. apply elem_of_map_to_list in Hin. by apply Hnone in Hin.
Qed.

Lemma attach_errors_cons (ee : ValidationError.t) (errs : list ValidationError.t)
  (field : Field.t) :
  attach_errors (ee :: errs) field
  = attach_errors errs
      (if String.eqb (ValidationError.Field ee) (Field.Name field)
       then Field.set_Errors
              (Field.Errors field ++ [ValidationError.Error ee]) field
       else field).
Proof. reflexivity. Qed.

(** The failures of a field are appended as messages, in order. *)
Lemma attach_errors_spec (errs : list ValidationError.t) (field : Field.t) :
  attach_errors errs field
  = Field.set_Errors
      (Field.Errors field
       ++ map ValidationError.Error
            (filter (fun ee => ValidationError.Field ee = Field.Name field) errs))
      field.
Proof.
  revert field. induction errs as [|ee errs IH]; intros field.
  - simpl. rewrite app_nil_r. by destruct field.
  - rewrite attach_errors_cons.
    destruct (String.eqb_spec (ValidationError.Field ee) (Field.Name field))
      as [Heq|Hne].
    + rewrite IH, filter_cons_True by done. destruct field; simpl.
      by rewrite <- app_assoc.
    + by rewrite IH, filter_cons_False.
Qed.

(** ** The loop over the skip list *)

Lemma slice_from_last_dot (s : string) :
  Strings.slice_from (s +:+ ".") (Z.of_nat (String.length (s +:+ ".")) - 1)
  = Returned ".".
Proof.
  unfold Strings.slice_from. rewrite length_append. simpl String.length.
  replace (Z.of_nat (String.length s + 1) - 1)%Z with (Z.of_nat (String.length s))
    by lia.
  rewrite Nat2Z.id.
  replace (String.length s + 1 - String.length s) with 1 by lia.
  destruct (_ && _) eqn:Hbounds;
    [|apply andb_false_iff in Hbounds; rewrite !Z.leb_gt in Hbounds; lia].
  f_equal. clear Hbounds. induction s as [|c s IH]; [reflexivity | exact IH].
Qed.

(** An entry that ends in a dot dumps the names that contain it. *)
Lemma skip_dump_subtree (s name : string) :
  skip_dump [s +:+ "."] name = Returned (Strings.Contains name (s +:+ ".")).
Proof.
  unfold skip_dump. rewrite slice_from_last_dot. simpl (String.eqb "." ".").
  destruct (String.eqb_spec (s +:+ ".") name) as [<-|Hne].
  - symmetry. f_equal. apply Contains_spec. exists "", "". simpl.
    by rewrite append_nil_r.
  - by destruct (Strings.Contains name (s +:+ ".")).
Qed.

(** An empty list dumps nothing. *)
Lemma skip_dump_nil (name : string) : skip_dump [] name = Returned false.
Proof. reflexivity. Qed.

(** ** The body of the rendering loops *)

Lemma present_run (range_map : gmap string any -> list (string * any))
  (field : Field.t) (errs : list ValidationError.t) (f : Form.t) :
  present range_map field errs f
  = match skip_dump (Form.Skip f) (Field.Name field) with
    | Panicked why => Panicked why
    | Returned true => Returned (None, f)
    | Returned false =>
        let prefixed := Field.set_Prefix (Form.Prefix f) field in
        Returned
          (Some (attach_errors errs
                   (if String.eqb (Field.Type_ field) "select"
                       || String.eqb (Field.Type_ field) "checkbox"
                    then match Form.selectMap f !! Field.Name field with
                         | Some it =>
                             select_loop (range_map it)
                               (Field.set_Items it prefixed)
                         | None => prefixed
                         end
                    else prefixed)), f)
    end.
Proof.
  unfold present. run_method. simpl.
  by destruct (skip_dump _ _) as [[|]|].
Qed.

(** A field that is shown keeps what extraction gave it, but for the
    four members that the loop body assigns. *)
Lemma present_shape (range_map : gmap string any -> list (string * any))
  (field shown : Field.t) (errs : list ValidationError.t) (f f' : Form.t) :
  present range_map field errs f = Returned (Some shown, f') ->
  f' = f /\
  skip_dump (Form.Skip f) (Field.Name field) = Returned false /\
  shown = Field.mk (Field.Name field) (Field.ID field) (Field.Label field)
            (Field.Placeholder field) (Field.Footer field) (Field.Type_ field)
            (Field.Value field) (Field.Items shown) (Field.SelectValue shown)
            (Field.SelectType field)
            (Field.Errors field
             ++ map ValidationError.Error
                  (filter (fun ee => ValidationError.Field ee = Field.Name field)
                     errs))
            (Field.Attrs field) (Form.Prefix f).
Proof.
  rewrite present_run.
  destruct (skip_dump _ _) as [[|]|]; [discriminate | | discriminate].
  intros [= <- <-]. split; [done|]. split; [done|].
  rewrite attach_errors_spec.
  destruct (_ || _); [destruct (_ !! _) as [it|]|].
  - rewrite select_loop_frame. by destruct field.
  - by destruct field.
  - by destruct field.
Qed.

(** ** Skip filtering *)

(** C1, amended: on a form without skip entries, registering a skip
    entry that ends in the path separator, such as ["Address."], removes
    exactly the fields whose [Name] contains the entry as a substring;
    every field whose [Name] has the entry as a prefix is among them. *)
Theorem skip_subtree_removes_containing
  (range_map : gmap string any -> list (string * any))
  (f : Form.t) (field : Field.t) (errs : list ValidationError.t)
  (section : string) :
  Form.Skip f = [] ->
  exists shown f',
    (SkipField (section +:+ ".") ≫= fun _ => present range_map field errs) f
    = Returned (shown, f')
    /\ Form.Skip f' = [section +:+ "."]
    /\ (shown = None
        <-> Strings.Contains (Field.Name field) (section +:+ ".") = true)
    /\ (Strings.HasPrefix (Field.Name field) (section +:+ ".") = true ->
        shown = None).
Proof.
  intros Hskip. unfold SkipField. run_method.
  rewrite present_run. destruct f as [tpl vd sm act mth pre sk ers].
  simpl in Hskip. subst sk.
  cbn [Form.Skip Form.set_Skip app]. rewrite skip_dump_subtree.
  destruct (Strings.Contains (Field.Name field) (section +:+ ".")) eqn:Hc.
  - eexists _, _. split; [reflexivity|]. split; [reflexivity|]. by split.
  - eexists _, _. split; [reflexivity|]. split; [reflexivity|]. split.
    + split; discriminate.
    + intros Hp. apply HasPrefix_Contains in Hp. congruence.
Qed.

(** ** Select maps *)

(** C2, amended: for a field of type [select] or [checkbox] with a
    select map registered under its [Name], the shown field has the map
    as [Items], and [SelectValue] is the key (the display label) of the
    one entry whose mapped value equals the field's [Value], in whatever
    order the map is visited; so the map [{"California": "CA",
    "New York": "NY"}] and the value ["CA"] give ["California"]. *)
Theorem select_value_is_label_of_value
  (range_map : gmap string any -> list (string * any))
  (f f' : Form.t) (field shown : Field.t) (errs : list ValidationError.t)
  (it : gmap string any) (label : string) :
  (forall m, range_map m ≡ₚ map_to_list m) ->
  Field.Type_ field = "select" \/ Field.Type_ field = "checkbox" ->
  Form.selectMap f !! Field.Name field = Some it ->
  it !! label = Some (Field.Value field) ->
  (forall other, it !! other = Some (Field.Value field) -> other = label) ->
  present range_map field errs f = Returned (Some shown, f') ->
  Field.Items shown = it /\ Field.SelectValue shown = label.
Proof.
  intros Hperm Hty Hit Hlabel Huniq. rewrite present_run.
  destruct (skip_dump _ _) as [[|]|]; [discriminate | | discriminate].
  intros [= <- <-]. rewrite Hit.
  assert (String.eqb (Field.Type_ field) "select"
          || String.eqb (Field.Type_ field) "checkbox" = true) as ->.
  { destruct Hty as [-> | ->]; reflexivity. }
  rewrite attach_errors_spec.
  set (prefixed := Field.set_Items it (Field.set_Prefix (Form.Prefix f) field)).
  assert (Hsv : Field.SelectValue (select_loop (range_map it) prefixed) = label).
  { apply select_loop_unique; [apply Hperm | done | done]. }
  rewrite select_loop_frame, Hsv. by destruct field.
Qed.

(** ** The namespace prefix *)

(** C3, amended: the loop body stores the registered namespace prefix
    in the [Prefix] member of every field it shows, uniformly, and
    leaves [Name] and [ID] as extraction gave them. *)
Theorem present_stores_prefix
  (range_map : gmap string any -> list (string * any))
  (f f' : Form.t) (field shown : Field.t) (errs : list ValidationError.t) :
  present range_map field errs f = Returned (Some shown, f') ->
  Field.Prefix shown = Form.Prefix f
  /\ Field.Name shown = Field.Name field
  /\ Field.ID shown = Field.ID field.
Proof.
  intros H. apply present_shape in H as (_ & _ & ->). by repeat split.
Qed.

(** ** Attaching validation failures *)

(** C4: a shown field keeps its [Name], and its [Errors] are the ones it
    was extracted with followed by one rendered message per reported
    failure whose field name equals that [Name], in the order of the
    report.  For a field extracted without errors and the single
    failure of kind [email] on ["Email"] without override, this is
    [["Invalid Email"]] on the field named ["Email"] and nothing on any
    other field. *)
Theorem errors_attached_by_name
  (range_map : gmap string any -> list (string * any))
  (f f' : Form.t) (field shown : Field.t) (errs : list ValidationError.t) :
  present range_map field errs f = Returned (Some shown, f') ->
  Field.Name shown = Field.Name field
  /\ Field.Errors shown
     = (Field.Errors field
        ++ map ValidationError.Error
             (filter (fun ee => ValidationError.Field ee = Field.Name field)
                errs))%list
  /\ (Field.Errors field = [] ->
      forall value param,
        errs = [ValidationError.mk "Email" value "email" "" param] ->
        Field.Errors shown
        = if decide (Field.Name field = "Email") then ["Invalid Email"] else []).
Proof.
  intros H. apply present_shape in H as (_ & _ & ->). simpl.
  split; [done|]. split; [done|].
  intros -> value param ->. simpl.
  case_decide as Hname.
  - by rewrite filter_cons_True by done.
  - rewrite filter_cons_False; [done|]. simpl. congruence.
Qed.

(** ** Rendering reads the form and writes nothing *)

Ltac read_only_steps :=
  repeat first
    [ progress auto with read_only
    | apply read_only_bind; [|intros ?]
    | match goal with
      | |- read_only (match ?x with _ => _ end) => destruct x
      | |- read_only (if ?b then _ else _) => destruct b
      end ].

Lemma present_read_only (range_map : gmap string any -> list (string * any))
  (field : Field.t) (errs : list ValidationError.t) :
  read_only (present range_map field errs).
Proof. unfold present. read_only_steps. Qed.

Lemma execute_read_only (field : Field.t) : read_only (execute field).
Proof. unfold execute. read_only_steps. Qed.

#[local] Hint Resolve present_read_only execute_read_only : read_only.

Lemma Render_range_read_only (range_map : gmap string any -> list (string * any))
  (fs : list Field.t) (errs : list ValidationError.t) (html : string) :
  read_only (Render_range range_map fs errs html).
Proof.
  revert html. induction fs as [|field fs IH]; intros html; simpl.
  - auto with read_only.
  - read_only_steps; apply IH.
Qed.

Lemma RenderField_range_read_only
  (range_map : gmap string any -> list (string * any))
  (fs : list Field.t) (field_name : string) (errs : list ValidationError.t)
  (html : string) :
  read_only (RenderField_range range_map fs field_name errs html).
Proof.
  revert html. induction fs as [|field fs IH]; intros html; simpl.
  - auto with read_only.
  - read_only_steps; apply IH.
Qed.

(** C7: whenever [Render] returns, whatever the record, the skip list,
    the registered select maps, the prefix and the reported failures
    are, the form's [Skip], [selectMap] and [Prefix] are what they were
    before the call. *)
Theorem Render_leaves_configuration
  (fields : govalue -> outcome (list Field.t))
  (range_map : gmap string any -> list (string * any))
  (v : govalue) (errs_raw : list (list ValidationError.t))
  (f f' : Form.t) (out : string * option error) :
  Render fields range_map v errs_raw f = Returned (out, f') ->
  Form.Skip f' = Form.Skip f
  /\ Form.selectMap f' = Form.selectMap f
  /\ Form.Prefix f' = Form.Prefix f.
Proof.
  intros H.
  assert (Hro : read_only (Render fields range_map v errs_raw)).
  { unfold Render. read_only_steps. apply Render_range_read_only. }
  apply Hro in H. by subst f'.
Qed.

(** ** Rendering one field *)

(** The loop of [RenderField] is the loop of [Render] over the fields
    of that name. *)
Lemma RenderField_range_filter
  (range_map : gmap string any -> list (string * any))
  (fs : list Field.t) (field_name : string) (errs : list ValidationError.t)
  (html : string) (f : Form.t) :
  RenderField_range range_map fs field_name errs html f
  = Render_range range_map
      (filter (fun field => Field.Name field = field_name) fs) errs html f.
Proof.
  revert html f. induction fs as [|field fs IH]; intros html f; [reflexivity|].
  cbn [RenderField_range].
  destruct (String.eqb_spec (Field.Name field) field_name) as [Heq|Hne];
    cbn [negb].
  - rewrite filter_cons_True by done. cbn [Render_range]. run_method.
    destruct (present range_map field errs f) as [[[shown|] f1]|why];
      [|apply IH|reflexivity].
    destruct (execute shown f1) as [[[sb|err] f2]|why]; [apply IH|done|done].
  - rewrite filter_cons_False by done. apply IH.
Qed.

(** Dumped fields leave the accumulated text as it is. *)
Lemma RenderField_range_dumped
  (range_map : gmap string any -> list (string * any))
  (fs : list Field.t) (field_name : string) (errs : list ValidationError.t)
  (html : string) (f : Form.t) :
  skip_dump (Form.Skip f) field_name = Returned true ->
  RenderField_range range_map fs field_name errs html f
  = Returned (html, None, f).
Proof.
  intros Hdump. induction fs as [|field fs IH]; [reflexivity|].
  cbn [RenderField_range].
  destruct (String.eqb_spec (Field.Name field) field_name) as [Heq|Hne];
    cbn [negb]; [|apply IH].
  run_method. rewrite present_run, Heq, Hdump. apply IH.
Qed.

(** C10: [RenderField] renders the fields whose [Name] equals
    [field_name] and no other, as [Render] would render them; when no
    extracted field has that name, and when the skip list dumps that
    name, it returns the empty HTML and a nil error. *)
Theorem RenderField_renders_named_fields
  (fields : govalue -> outcome (list Field.t))
  (range_map : gmap string any -> list (string * any))
  (v : govalue) (field_name : string)
  (errs_raw : list (list ValidationError.t)) (f : Form.t) :
  RenderField fields range_map v field_name errs_raw f
  = Render
      (fun v => match fields v with
                | Returned fs =>
                    Returned (filter (fun field => Field.Name field = field_name) fs)
                | Panicked why => Panicked why
                end)
      range_map v errs_raw f
  /\ (forall fs,
        fields v = Returned fs ->
        (forall field, field ∈ fs -> Field.Name field <> field_name) ->
        RenderField fields range_map v field_name errs_raw f
        = Returned ("", None, f))
  /\ (forall fs,
        fields v = Returned fs ->
        skip_dump (Form.Skip f) field_name = Returned true ->
        RenderField fields range_map v field_name errs_raw f
        = Returned ("", None, f)).
Proof.
  unfold RenderField, Render. run_method. split; [|split].
  - destruct (fields v) as [fs|why]; [|reflexivity]. apply RenderField_range_filter.
  - intros fs -> Hnone. rewrite RenderField_range_filter.
    destruct (filter _ fs) as [|field named] eqn:Hnamed; [reflexivity|].
    assert (Hin : field ∈ filter (fun field => Field.Name field = field_name) fs)
      by (rewrite Hnamed; left).
    apply list_elem_of_filter in Hin as [Hname Hin]. by apply Hnone in Hin.
  - intros fs -> Hdump. by apply RenderField_range_dumped.
Qed.

(** ** Validation outcomes *)

(** C6: [Validate] tells the three outcomes of the validator apart.
    The validator hands out a list of field errors only when the list
    is not empty; under that guarantee the result is [(true, [])]
    exactly when the record is valid, [(false, [])] exactly when the
    validator reports its internal error, and [false] with a non-empty
    list, one entry per field error, exactly when validation failed. *)
Theorem Validate_outcomes_distinct (f : Form.t) (vd : Validator.t)
  (holder : govalue) :
  Form.Validator f = Some vd ->
  (forall errs, Validator.Struct vd holder = Some (ValidationErrors errs) ->
                errs <> []) ->
  exists ok vee,
    Validate holder f = Returned (ok, vee, f)
    /\ (Validator.Struct vd holder = None <-> ok = true /\ vee = [])
    /\ (Validator.Struct vd holder = Some InvalidValidationError
        <-> ok = false /\ vee = [])
    /\ ((exists errs, Validator.Struct vd holder = Some (ValidationErrors errs)
                      /\ map ValidationError.Field vee
                         = map FieldError.Field errs)
        <-> ok = false /\ vee <> []).
Proof.
  intros Hvd Hnonempty. unfold Validate. run_method. rewrite Hvd.
  destruct (Validator.Struct vd holder) as [[|errs]|] eqn:Hs.
  - exists false, []. split; [reflexivity|]. split; [|split].
    + split; [discriminate | by intros [? _]].
    + done.
    + split; [by intros (errs & ? & _) | by intros [_ ?]].
  - eexists false, _. split; [reflexivity|]. split; [|split].
    + split; [discriminate | by intros [? _]].
    + split; [discriminate|]. intros [_ Hnil]. apply map_eq_nil in Hnil.
      by apply Hnonempty in Hnil.
    + split.
      * intros _. split; [done|]. intros Hnil. apply map_eq_nil in Hnil.
        by apply Hnonempty in Hnil.
      * intros _. exists errs. split; [done|]. rewrite map_map. reflexivity.
  - exists true, []. split; [reflexivity|]. split; [|split].
    + done.
    + split; [discriminate | by intros [? _]].
    + split; [by intros (errs & ? & _) | by intros [? _]].
Qed.

(** ** Construction *)

(** On a form without skip entries whose template is set, the loop of
    [Render] returns. *)
Lemma Render_range_returns (range_map : gmap string any -> list (string * any))
  (fs : list Field.t) (errs : list ValidationError.t) (html : string)
  (f : Form.t) (tpl : Template.t) :
  Form.Skip f = [] ->
  Form.Tpl f = Some tpl ->
  exists out, Render_range range_map fs errs html f = Returned (out, f).
Proof.
  intros Hskip Htpl. revert html.
  induction fs as [|field fs IH]; intros html; cbn [Render_range].
  - by eexists.
  - run_method. rewrite present_run, Hskip, skip_dump_nil. cbv zeta.
    unfold execute. run_method. rewrite Htpl.
    destruct (Template.Execute tpl _) as [sb|err]; [apply IH | by eexists].
Qed.

(** C9: [New] never returns a nil form; and when reading the template
    file fails, [New] returns, together with the read error, a form
    that holds the parsed built-in template and on which [Render]
    returns for every extracted field sequence. *)
Theorem New_returns_form_on_read_error
  (basetmpl basepath : string) (ReadFile : string -> string + error)
  (Join : string -> string -> string) (Parse : string -> Template.t + error)
  (validator_New : Validator.t) (pth : list string) :
  (forall form errf,
     New basetmpl basepath ReadFile Join Parse validator_New pth
     = Returned (form, errf) ->
     is_Some form)
  /\ (forall e tpl,
        ReadFile (New_path basepath Join pth) = inr e ->
        Parse basetmpl = inl tpl ->
        exists f,
          New basetmpl basepath ReadFile Join Parse validator_New pth
          = Returned (Some f, Some e)
          /\ Form.Tpl f = Some tpl
          /\ forall fields range_map v errs_raw fs,
               fields v = Returned fs ->
               exists out,
                 Render fields range_map v errs_raw f = Returned (out, f)).
Proof.
  unfold New. split.
  - intros form errf. destruct (Parse _) as [tpl|e]; [|discriminate].
    intros [= <- _]. by eexists.
  - intros e tpl -> ->. eexists. split; [reflexivity|]. split; [reflexivity|].
    intros fields range_map v errs_raw fs Hfs. unfold Render. run_method.
    rewrite Hfs. by eapply Render_range_returns.
Qed.

(** ** Further properties of the package *)

(** ** Skip entries in general *)

(** The last byte of a skip entry that is not empty. *)
Lemma slice_from_last (sv : string) :
  sv <> "" ->
  exists last,
    Strings.slice_from sv (Z.of_nat (String.length sv) - 1) = Returned last
    /\ (last = "." <-> exists s, sv = s +:+ ".").
Proof.
  destruct sv as [|c sv]; [done|]. intros _.
  unfold Strings.slice_from. cbn [String.length].
  replace (Z.of_nat (S (String.length sv)) - 1)%Z with (Z.of_nat (String.length sv))
    by lia.
  rewrite Nat2Z.id.
  replace (S (String.length sv) - String.length sv) with 1 by lia.
  destruct (_ && _) eqn:Hbounds;
    [|apply andb_false_iff in Hbounds; rewrite !Z.leb_gt in Hbounds; lia].
  clear Hbounds. eexists. split; [reflexivity|].
  revert c. induction sv as [|c' sv IH]; intros c.
  - simpl. split.
    + intros [= ->]. by exists "".
    + intros [[|b s] H]; [by injection H as -> | ].
      rewrite append_cons in H. injection H as _ H. by destruct s.
  - change (substring (String.length (String c' sv)) 1 (String c (String c' sv)))
      with (substring (String.length sv) 1 (String c' sv)).
    rewrite IH. split.
    + intros [s ->]. by exists (String c s).
    + intros [[|b s] H]; [discriminate|].
      rewrite append_cons in H. injection H as _ H. by exists s.
Qed.

(** What the loop over the skip list computes when no entry is empty. *)
Lemma skip_dump_returns (skip : list string) (name : string) :
  Forall (fun sv => sv <> "") skip ->
  exists dump,
    skip_dump skip name = Returned dump
    /\ (dump = true
        <-> Exists (fun sv => sv = name
                              \/ ((exists s, sv = s +:+ ".")
                                  /\ Strings.Contains name sv = true)) skip).
Proof.
  induction 1 as [|sv skip Hsv _ (dump & Hrest & Hdump)].
  - exists false. split; [reflexivity|]. split; [discriminate|].
    intros H. by apply Exists_nil in H.
  - cbn [skip_dump].
    destruct (String.eqb_spec sv name) as [Heq|Hne].
    { exists true. split; [reflexivity|]. split; [|done].
      intros _. apply Exists_cons. by left; left. }
    destruct (slice_from_last sv Hsv) as (last & -> & Hlast).
    destruct (String.eqb_spec last ".") as [Hdot|Hnodot].
    + destruct (Strings.Contains name sv) eqn:Hc.
      * exists true. split; [reflexivity|]. split; [|done].
        intros _. apply Exists_cons. left. right. split; [by apply Hlast | done].
      * exists dump. split; [exact Hrest|]. rewrite Hdump, Exists_cons.
        split; [by right|]. intros [[?|[_ ?]]|?]; [done | congruence | done].
    + exists dump. split; [exact Hrest|]. rewrite Hdump, Exists_cons.
      split; [by right|]. intros [[?|[Hs _]]|?]; [done | | done].
      by apply Hlast in Hs.
Qed.

(** Once an entry dumps a name, entries registered later change
    nothing, whatever they are. *)
Lemma skip_dump_app_true (skip more : list string) (name : string) :
  skip_dump skip name = Returned true ->
  skip_dump (skip ++ more) name = Returned true.
Proof.
  induction skip as [|sv skip IH]; [discriminate|].
  cbn [skip_dump app]. destruct (String.eqb sv name); [done|].
  destruct (Strings.slice_from _ _) as [last|why]; [|done].
  destruct (String.eqb last "."); [destruct (Strings.Contains name sv)|]; auto.
Qed.

(** An empty entry that is reached stops the loop with a panic. *)
Lemma skip_dump_empty_entry (before after : list string) (name : string) :
  name <> "" ->
  skip_dump before name = Returned false ->
  skip_dump (before ++ "" :: after) name = Panicked "slice bounds out of range".
Proof.
  intros Hname. induction before as [|sv before IH]; intros Hbefore.
  - cbn [skip_dump app]. by destruct (String.eqb_spec "" name) as [<-|_].
  - cbn [skip_dump app] in *. destruct (String.eqb sv name); [done|].
    destruct (Strings.slice_from _ _) as [last|why]; [|done].
    destruct (String.eqb last "."); [destruct (Strings.Contains name sv)|]; auto.
    discriminate.
Qed.

Lemma skip_dump_with_empty_entry (skip : list string) (name : string) :
  "" ∈ skip -> name <> "" -> skip_dump skip name <> Returned false.
Proof.
  intros Hin Hname. induction skip as [|sv skip IH]; [by apply elem_of_nil in Hin|].
  cbn [skip_dump]. destruct (String.eqb_spec sv name) as [Heq|Hne]; [done|].
  apply elem_of_cons in Hin as [<-|Hin]; [done|].
  destruct (Strings.slice_from _ _) as [last|why]; [|done].
  destruct (String.eqb last "."); [destruct (Strings.Contains name sv)|]; auto.
Qed.

(** X1: on a form whose skip entries are all non-empty the loop body
    returns, and it dumps a field exactly when some entry equals the
    field's [Name], or ends in a dot and occurs in the [Name]. *)
Theorem field_dumped_iff_entry_matches
  (range_map : gmap string any -> list (string * any))
  (f : Form.t) (field : Field.t) (errs : list ValidationError.t) :
  Forall (fun sv => sv <> "") (Form.Skip f) ->
  exists shown,
    present range_map field errs f = Returned (shown, f)
    /\ (shown = None
        <-> Exists (fun sv => sv = Field.Name field
                              \/ ((exists s, sv = s +:+ ".")
                                  /\ Strings.Contains (Field.Name field) sv = true))
              (Form.Skip f)).
Proof.
  intros Hskip. rewrite present_run.
  destruct (skip_dump_returns _ (Field.Name field) Hskip) as (dump & -> & Hdump).
  destruct dump.
  - eexists. split; [reflexivity|]. split; [intros _; by apply Hdump | done].
  - eexists. split; [reflexivity|]. split; [discriminate|].
    intros H. apply Hdump in H. discriminate.
Qed.

(** X2: when no skip entry is empty, the order in which the entries
    were registered does not matter to the loop over the skip list. *)
Theorem skip_order_is_irrelevant (skip skip' : list string) (name : string) :
  Forall (fun sv => sv <> "") skip ->
  skip ≡ₚ skip' ->
  skip_dump skip name = skip_dump skip' name.
Proof.
  intros Hskip Hperm.
  assert (Hskip' : Forall (fun sv => sv <> "") skip') by by rewrite <- Hperm.
  destruct (skip_dump_returns _ name Hskip) as (dump & -> & Hdump).
  destruct (skip_dump_returns _ name Hskip') as (dump' & -> & Hdump').
  rewrite <- Hperm in Hdump'. f_equal.
  destruct dump, dump'; try done.
  - symmetry. apply Hdump', Hdump. done.
  - apply Hdump, Hdump'. done.
Qed.

(** X3: an empty skip entry is fatal.  With one registered, a field
    with a non-empty [Name] is never shown; when no entry before the
    empty one dumps the field, the loop body panics on the slice
    [sv[len(sv)-1:]], and so does [Render] when that field is the first
    one extracted. *)
Theorem empty_skip_entry_panics
  (fields : govalue -> outcome (list Field.t))
  (range_map : gmap string any -> list (string * any))
  (f : Form.t) (field : Field.t) (errs : list ValidationError.t) :
  Field.Name field <> "" ->
  (forall shown f',
     "" ∈ Form.Skip f ->
     present range_map field errs f = Returned (shown, f') -> shown = None)
  /\ (forall before after,
        Form.Skip f = (before ++ "" :: after)%list ->
        skip_dump before (Field.Name field) = Returned false ->
        present range_map field errs f = Panicked "slice bounds out of range"
        /\ forall v rest errs_raw,
             fields v = Returned (field :: rest) ->
             Render fields range_map v errs_raw f
             = Panicked "slice bounds out of range").
Proof.
  intros Hname. split.
  - intros shown f' Hin. rewrite present_run.
    pose proof (skip_dump_with_empty_entry _ _ Hin Hname) as Hne.
    destruct (skip_dump _ _) as [[|]|]; [|done|done]. by intros [= <- _].
  - intros before after Hskip Hbefore.
    assert (Hp : forall errs',
      present range_map field errs' f = Panicked "slice bounds out of range").
    { intros errs'. rewrite present_run, Hskip.
      by rewrite (skip_dump_empty_entry _ _ _ Hname Hbefore). }
    split; [apply Hp|].
    intros v rest errs_raw Hfs. unfold Render. run_method. rewrite Hfs.
    cbn [Render_range]. run_method. by rewrite Hp.
Qed.

(** X4: skip entries accumulate.  A field that the loop body dumps is
    still dumped after any further call of [SkipField], the empty
    entry included, and the new entry is appended to the list. *)
Theorem SkipField_keeps_fields_dumped
  (range_map : gmap string any -> list (string * any))
  (f : Form.t) (field : Field.t) (errs : list ValidationError.t)
  (skip : string) :
  present range_map field errs f = Returned (None, f) ->
  (SkipField skip ≫= fun _ => present range_map field errs) f
  = Returned (None, Form.set_Skip (Form.Skip f ++ [skip]) f).
Proof.
  rewrite present_run. intros Hdumped.
  unfold SkipField. run_method. rewrite present_run.
  destruct f as [tpl vd sm act mth pre sk ers]. cbn [Form.Skip Form.set_Skip] in *.
  destruct (skip_dump sk (Field.Name field)) as [[|]|] eqn:Hsk; try discriminate.
  by rewrite (skip_dump_app_true _ _ _ Hsk).
Qed.

(** ** The rendering loops as a whole *)

Lemma append_assoc (s t u : string) : (s +:+ t) +:+ u = s +:+ (t +:+ u).
Proof.
  induction s as [|c s IH]; [reflexivity|]. by rewrite !append_cons, IH.
Qed.

Lemma Render_range_cons (range_map : gmap string any -> list (string * any))
  (field : Field.t) (rest : list Field.t) (errs : list ValidationError.t)
  (html : string) (f : Form.t) :
  Render_range range_map (field :: rest) errs html f
  = match present range_map field errs f with
    | Panicked why => Panicked why
    | Returned (None, f1) => Render_range range_map rest errs html f1
    | Returned (Some shown, f1) =>
        match execute shown f1 with
        | Panicked why => Panicked why
        | Returned (inr err, f2) => Returned ("", Some err, f2)
        | Returned (inl sb, f2) => Render_range range_map rest errs (html +:+ sb) f2
        end
    end.
Proof.
  cbn [Render_range]. run_method.
  destruct (present range_map field errs f) as [[[shown|] f1]|why]; [|done|done].
  by destruct (execute shown f1) as [[[sb|err] f2]|why].
Qed.

Lemma execute_run (field : Field.t) (f : Form.t) (tpl : Template.t) :
  Form.Tpl f = Some tpl ->
  execute field f = Returned (Template.Execute tpl field, f).
Proof. intros Htpl. unfold execute. run_method. by rewrite Htpl. Qed.

Lemma Render_range_total (range_map : gmap string any -> list (string * any))
  (fs : list Field.t) (errs : list ValidationError.t) (html : string)
  (f : Form.t) (tpl : Template.t) :
  Forall (fun sv => sv <> "") (Form.Skip f) ->
  Form.Tpl f = Some tpl ->
  exists out, Render_range range_map fs errs html f = Returned (out, f).
Proof.
  intros Hskip Htpl. revert html.
  induction fs as [|field fs IH]; intros html; [by eexists|].
  rewrite Render_range_cons, present_run.
  destruct (skip_dump_returns _ (Field.Name field) Hskip) as ([|] & -> & _);
    [apply IH|].
  cbv beta iota zeta. rewrite (execute_run _ _ _ Htpl).
  destruct (Template.Execute tpl _) as [sb|err]; [apply IH | by eexists].
Qed.

(** X5: [Render] and [RenderField] return, without a panic, whenever
    extraction returns, no skip entry is empty and the form has its
    template; the form is then as it was. *)
Theorem Render_returns_on_sound_form
  (fields : govalue -> outcome (list Field.t))
  (range_map : gmap string any -> list (string * any))
  (v : govalue) (errs_raw : list (list ValidationError.t))
  (f : Form.t) (tpl : Template.t) (fs : list Field.t) :
  Forall (fun sv => sv <> "") (Form.Skip f) ->
  Form.Tpl f = Some tpl ->
  fields v = Returned fs ->
  (exists out, Render fields range_map v errs_raw f = Returned (out, f))
  /\ (forall field_name,
        exists out,
          RenderField fields range_map v field_name errs_raw f
          = Returned (out, f)).
Proof.
  intros Hskip Htpl Hfs. split.
  - unfold Render. run_method. rewrite Hfs. by eapply Render_range_total.
  - intros field_name. unfold RenderField. run_method. rewrite Hfs.
    rewrite RenderField_range_filter. by eapply Render_range_total.
Qed.

Lemma Render_range_error (range_map : gmap string any -> list (string * any))
  (fs : list Field.t) (errs : list ValidationError.t) (html out : string)
  (err : error) (f f' : Form.t) :
  Render_range range_map fs errs html f = Returned (out, Some err, f') ->
  out = ""
  /\ exists tpl field shown,
       Form.Tpl f = Some tpl /\ field ∈ fs
       /\ present range_map field errs f = Returned (Some shown, f)
       /\ Template.Execute tpl shown = inr err.
Proof.
  revert html. induction fs as [|field fs IH]; intros html; [discriminate|].
  rewrite Render_range_cons.
  destruct (present range_map field errs f) as [[[shown|] f1]|why] eqn:Hp;
    [| |discriminate].
  - pose proof (present_read_only _ _ _ _ _ _ Hp) as ->.
    unfold execute. run_method.
    destruct (Form.Tpl f) as [tpl|] eqn:Htpl; [|discriminate].
    destruct (Template.Execute tpl shown) as [sb|err'] eqn:Hex.
    + intros H. apply IH in H as (-> & tpl' & field' & shown' & ? & ? & ? & ?).
      split; [done|]. exists tpl', field', shown'.
      split; [done|]. split; [by apply elem_of_cons; right | done].
    + intros [= <- <- <-]. split; [done|]. exists tpl, field, shown.
      split; [done|]. split; [by apply elem_of_cons; left | done].
  - pose proof (present_read_only _ _ _ _ _ _ Hp) as ->.
    intros H. apply IH in H as (-> & tpl' & field' & shown' & ? & ? & ? & ?).
    split; [done|]. exists tpl', field', shown'.
    split; [done|]. split; [by apply elem_of_cons; right | done].
Qed.

(** X6: when [Render] returns an error, the HTML it returns is empty,
    whatever was rendered before, and the error is the one that the
    template gave for a field that the loop body shows. *)
Theorem Render_error_discards_html
  (fields : govalue -> outcome (list Field.t))
  (range_map : gmap string any -> list (string * any))
  (v : govalue) (errs_raw : list (list ValidationError.t))
  (f f' : Form.t) (html : string) (err : error) :
  Render fields range_map v errs_raw f = Returned (html, Some err, f') ->
  html = ""
  /\ exists fs tpl field shown,
       fields v = Returned fs /\ Form.Tpl f = Some tpl /\ field ∈ fs
       /\ present range_map field
            (match errs_raw with e0 :: _ => e0 | [] => [] end) f
          = Returned (Some shown, f)
       /\ Template.Execute tpl shown = inr err.
Proof.
  unfold Render. run_method. destruct (fields v) as [fs|why]; [|discriminate].
  intros H. apply Render_range_error in H as (-> & tpl & field & shown & H).
  split; [done|]. by exists fs, tpl, field, shown.
Qed.

Lemma field_dumped_shape (range_map : gmap string any -> list (string * any))
  (f : Form.t) (field : Field.t) (errs : list ValidationError.t) :
  Forall (fun sv => sv <> "") (Form.Skip f) ->
  present range_map field errs f = Returned (None, f)
  \/ exists shown, present range_map field errs f = Returned (Some shown, f).
Proof.
  intros Hskip. rewrite present_run.
  destruct (skip_dump_returns _ (Field.Name field) Hskip) as ([|] & -> & _);
    [by left | right; by eexists].
Qed.

Lemma Render_range_concatenates
  (range_map : gmap string any -> list (string * any))
  (fs : list Field.t) (errs : list ValidationError.t) (html : string)
  (f : Form.t) (tpl : Template.t) :
  Forall (fun sv => sv <> "") (Form.Skip f) ->
  Form.Tpl f = Some tpl ->
  (forall field, exists sb, Template.Execute tpl field = inl sb) ->
  Render_range range_map fs errs html f
  = Returned
      (html +:+ fold_right (fun piece rest => piece +:+ rest) ""
                  (map (fun field =>
                          match present range_map field errs f with
                          | Returned (Some shown, _) =>
                              match Template.Execute tpl shown with
                              | inl sb => sb
                              | inr _ => ""
                              end
                          | _ => ""
                          end) fs),
       None, f).
Proof.
  intros Hskip Htpl Htotal. revert html.
  induction fs as [|field fs IH]; intros html.
  - simpl. by rewrite append_nil_r.
  - rewrite Render_range_cons. cbn [map fold_right].
    destruct (field_dumped_shape range_map f field errs Hskip)
      as [->|(shown & ->)].
    + by rewrite IH.
    + rewrite (execute_run _ _ _ Htpl).
      destruct (Htotal shown) as [sb ->]. by rewrite IH, append_assoc.
Qed.

(** X7: with a template that never fails, on a form without empty skip
    entries, the HTML of [Render] is the concatenation, in extraction
    order, of what the template writes for each field that the loop
    body shows; dumped fields contribute nothing, and the error is
    nil. *)
Theorem Render_html_is_concatenation
  (fields : govalue -> outcome (list Field.t))
  (range_map : gmap string any -> list (string * any))
  (v : govalue) (errs_raw : list (list ValidationError.t))
  (f : Form.t) (tpl : Template.t) (fs : list Field.t) :
  Forall (fun sv => sv <> "") (Form.Skip f) ->
  Form.Tpl f = Some tpl ->
  (forall field, exists sb, Template.Execute tpl field = inl sb) ->
  fields v = Returned fs ->
  Render fields range_map v errs_raw f
  = Returned
      (fold_right (fun piece rest => piece +:+ rest) ""
         (map (fun field =>
                 match present range_map field
                         (match errs_raw with e0 :: _ => e0 | [] => [] end) f
                 with
                 | Returned (Some shown, _) =>
                     match Template.Execute tpl shown with
                     | inl sb => sb
                     | inr _ => ""
                     end
                 | _ => ""
                 end) fs),
       None, f).
Proof.
  intros Hskip Htpl Htotal Hfs. unfold Render. run_method. rewrite Hfs.
  by rewrite (Render_range_concatenates _ _ _ _ _ _ Hskip Htpl Htotal).
Qed.

(** ** One field among fields with distinct names *)

Lemma filter_unique_name (fs : list Field.t) (field : Field.t) :
  NoDup (map Field.Name fs) ->
  field ∈ fs ->
  filter (fun other => Field.Name other = Field.Name field) fs = [field].
Proof.
  induction fs as [|head fs IH]; intros Hnodup Hin;
    [by apply elem_of_nil in Hin|].
  cbn [map] in Hnodup. apply NoDup_cons in Hnodup as [Hhead Hnodup].
  apply elem_of_cons in Hin as [->|Hin].
  - rewrite filter_cons_True by done. f_equal.
    destruct (filter _ fs) as [|other named] eqn:Hnamed; [done|]. exfalso.
    assert (Ho : other ∈ filter (fun other => Field.Name other = Field.Name head) fs)
      by (rewrite Hnamed; left).
    apply list_elem_of_filter in Ho as [Hname Ho]. apply Hhead.
    rewrite <- Hname. by apply list_elem_of_fmap_2.
  - rewrite filter_cons_False; [by apply IH|].
    intros Hname. apply Hhead. rewrite Hname. by apply list_elem_of_fmap_2.
Qed.

(** X8: when the extracted fields have distinct names, [RenderField]
    for the name of one of them is [Render] of that field alone: where
    the field stands in the record, and what the other fields are, does
    not matter. *)
Theorem RenderField_of_distinct_names
  (fields : govalue -> outcome (list Field.t))
  (range_map : gmap string any -> list (string * any))
  (v : govalue) (errs_raw : list (list ValidationError.t))
  (f : Form.t) (fs : list Field.t) (field : Field.t) :
  fields v = Returned fs ->
  NoDup (map Field.Name fs) ->
  field ∈ fs ->
  RenderField fields range_map v (Field.Name field) errs_raw f
  = Render (fun _ => Returned [field]) range_map v errs_raw f.
Proof.
  intros Hfs Hnodup Hin. unfold RenderField, Render. run_method. rewrite Hfs.
  by rewrite RenderField_range_filter, filter_unique_name.
Qed.

(** ** Select maps in general *)

Lemma present_select_shape (range_map : gmap string any -> list (string * any))
  (f f' : Form.t) (field shown : Field.t) (errs : list ValidationError.t)
  (it : gmap string any) :
  Field.Type_ field = "select" \/ Field.Type_ field = "checkbox" ->
  Form.selectMap f !! Field.Name field = Some it ->
  present range_map field errs f = Returned (Some shown, f') ->
  Field.Items shown = it
  /\ Field.SelectValue shown
     = default (Field.SelectValue field)
         (fst <$> last (filter (fun p => p.2 = Field.Value field) (range_map it))).
Proof.
  intros Hty Hit. rewrite present_run.
  destruct (skip_dump _ _) as [[|]|]; [discriminate | | discriminate].
  intros [= <- <-]. rewrite Hit.
  assert (String.eqb (Field.Type_ field) "select"
          || String.eqb (Field.Type_ field) "checkbox" = true) as ->.
  { destruct Hty as [-> | ->]; reflexivity. }
  rewrite attach_errors_spec, select_loop_frame, select_loop_SelectValue.
  by destruct field.
Qed.

(** X9: for a field of type [select] or [checkbox] with a registered
    map, in whatever order the map is visited: if some entry's value
    equals the field's [Value], the [SelectValue] shown is the key of
    such an entry, also when several entries share the value; if none
    does, [SelectValue] stays as extracted. *)
Theorem SelectValue_is_a_matching_label
  (range_map : gmap string any -> list (string * any))
  (f f' : Form.t) (field shown : Field.t) (errs : list ValidationError.t)
  (it : gmap string any) :
  (forall m, range_map m ≡ₚ map_to_list m) ->
  Field.Type_ field = "select" \/ Field.Type_ field = "checkbox" ->
  Form.selectMap f !! Field.Name field = Some it ->
  present range_map field errs f = Returned (Some shown, f') ->
  ((exists label, it !! label = Some (Field.Value field)) ->
   it !! Field.SelectValue shown = Some (Field.Value field))
  /\ ((forall label, it !! label <> Some (Field.Value field)) ->
      Field.SelectValue shown = Field.SelectValue field).
Proof.
  intros Hperm Hty Hit Hshown.
  destruct (present_select_shape _ _ _ _ _ _ _ Hty Hit Hshown) as [_ ->].
  destruct (last _) as [[v k]|] eqn:Hlast; simpl.
  - assert (Hin : (v, k) ∈ filter (fun p => p.2 = Field.Value field) (range_map it)).
    { apply last_Some in Hlast as [l' ->]. apply elem_of_app. right. left. }
    apply list_elem_of_filter in Hin as [Hk Hin]. simpl in Hk. subst k.
    rewrite Hperm in Hin. apply elem_of_map_to_list in Hin.
    split; [done|]. intros Hnone. by apply Hnone in Hin.
  - split; [|done]. intros [label Hlabel]. exfalso.
    assert (Hin : (label, Field.Value field)
                  ∈ filter (fun p => p.2 = Field.Value field) (range_map it)).
    { apply list_elem_of_filter. split; [done|].
      rewrite Hperm. by apply elem_of_map_to_list. }
    apply last_None in Hlast. rewrite Hlast in Hin. by apply elem_of_nil in Hin.
Qed.

(** X10: the select map is only looked at for the types [select] and
    [checkbox], under the field's own [Name]: a field of another type,
    and a field without a map registered under its name, is shown with
    the [Items] and the [SelectValue] it was extracted with. *)
Theorem select_map_ignored
  (range_map : gmap string any -> list (string * any))
  (f f' : Form.t) (field shown : Field.t) (errs : list ValidationError.t) :
  (Field.Type_ field <> "select" /\ Field.Type_ field <> "checkbox")
  \/ Form.selectMap f !! Field.Name field = None ->
  present range_map field errs f = Returned (Some shown, f') ->
  Field.Items shown = Field.Items field
  /\ Field.SelectValue shown = Field.SelectValue field.
Proof.
  intros Hcase. rewrite present_run.
  destruct (skip_dump _ _) as [[|]|]; [discriminate | | discriminate].
  intros [= <- <-]. rewrite attach_errors_spec.
  destruct Hcase as [[Hs Hc]|Hnone].
  - apply String.eqb_neq in Hs, Hc. rewrite Hs, Hc. by destruct field.
  - rewrite Hnone. destruct (_ || _); by destruct field.
Qed.

(** X11: registrations of select maps compose as assignments to a map:
    for one name the last registration wins, and registrations for
    different names can be made in either order. *)
Theorem Select_last_registration_wins (f : Form.t) (nm other : string)
  (mp1 mp2 : gmap string any) :
  (Select nm mp1 ≫= fun _ => Select nm mp2) f = Select nm mp2 f
  /\ (nm <> other ->
      (Select nm mp1 ≫= fun _ => Select other mp2) f
      = (Select other mp2 ≫= fun _ => Select nm mp1) f).
Proof.
  unfold Select. run_method. destruct f as [tpl vd sm act mth pre sk ers].
  cbn [Form.set_selectMap Form.selectMap Form.Tpl Form.Validator Form.Action
       Form.Method Form.Prefix Form.Skip Form.Errors].
  split.
  - by rewrite insert_insert_eq.
  - intros Hne. by rewrite insert_insert_ne.
Qed.

(** X12: a registration under one name reaches the fields of that name
    and no other.  After [Select nm mp], a field with another [Name] is
    shown, dumped or refused exactly as before; a field named [nm] of
    type [select] or [checkbox] that is shown has [mp] as [Items]. *)
Theorem Select_reaches_its_name_only
  (range_map : gmap string any -> list (string * any))
  (f : Form.t) (field : Field.t) (errs : list ValidationError.t)
  (nm : string) (mp : gmap string any) :
  (Field.Name field <> nm ->
   (Select nm mp ≫= fun _ => present range_map field errs) f
   = match present range_map field errs f with
     | Returned (shown, _) =>
         Returned (shown, Form.set_selectMap (<[nm := mp]> (Form.selectMap f)) f)
     | Panicked why => Panicked why
     end)
  /\ (Field.Name field = nm ->
      Field.Type_ field = "select" \/ Field.Type_ field = "checkbox" ->
      forall shown f',
        (Select nm mp ≫= fun _ => present range_map field errs) f
        = Returned (Some shown, f') ->
        Field.Items shown = mp).
Proof.
  split.
  - intros Hne. unfold Select. run_method. rewrite !present_run.
    destruct f as [tpl vd sm act mth pre sk ers].
    cbn [Form.set_selectMap Form.selectMap Form.Skip Form.Prefix].
    rewrite lookup_insert_ne by done.
    by destruct (skip_dump sk (Field.Name field)) as [[|]|].
  - intros Hname Hty shown f' Hrun. unfold Select in Hrun. run_method.
    eapply present_select_shape in Hrun as [HItems _]; [exact HItems | exact Hty |].
    destruct f as [tpl vd sm act mth pre sk ers].
    cbn [Form.set_selectMap Form.selectMap]. rewrite Hname.
    apply lookup_insert_eq.
Qed.

(** ** What the other methods leave alone *)

(** X13: like [Render], the methods [RenderField], [RenderBind] and
    [Validate] only read the form: whenever one of them returns, the
    form is as it was before the call. *)
Theorem readers_leave_the_form
  (Copy : govalue -> govalue -> govalue * option error)
  (fields : govalue -> outcome (list Field.t))
  (range_map : gmap string any -> list (string * any))
  (f f' : Form.t) :
  (forall v field_name errs_raw out,
     RenderField fields range_map v field_name errs_raw f = Returned (out, f') ->
     f' = f)
  /\ (forall from to errs out,
        RenderBind Copy fields range_map from to errs f = Returned (out, f') ->
        f' = f)
  /\ (forall holder result,
        Validate holder f = Returned (result, f') -> f' = f).
Proof.
  split; [|split].
  - intros v field_name errs_raw out.
    assert (Hro : read_only (RenderField fields range_map v field_name errs_raw)).
    { unfold RenderField. read_only_steps. apply RenderField_range_read_only. }
    apply Hro.
  - intros from to errs out.
    assert (Hro : read_only (RenderBind Copy fields range_map from to errs)).
    { unfold RenderBind, Render. read_only_steps. apply Render_range_read_only. }
    apply Hro.
  - intros holder result.
    assert (Hro : read_only (Validate holder)).
    { unfold Validate. read_only_steps. }
    apply Hro.
Qed.

(** ** Validation failures as [Validate] makes them *)


(** X15: the failures that [Validate] reports reach the fields they
    name.  Showing a field with the failures of [Validate] appends to
    its [Errors], in the validator's order, one message per field error
    on that field's [Name]: the phrase of the tags [email], [len]
    (with the tag's parameter as it is) and [alpha], the title-cased
    tag otherwise. *)
Theorem Validate_then_present
  (range_map : gmap string any -> list (string * any))
  (f f' : Form.t) (vd : Validator.t) (holder : govalue)
  (fes : list FieldError.t) (field shown : Field.t) :
  Form.Validator f = Some vd ->
  Validator.Struct vd holder = Some (ValidationErrors fes) ->
  (Validate holder ≫= fun result => present range_map field result.2) f
  = Returned (Some shown, f') ->
  Field.Errors shown
  = (Field.Errors field
     ++ map (fun fe =>
               if String.eqb (FieldError.Tag fe) "email" then "Invalid Email"
               else if String.eqb (FieldError.Tag fe) "len"
                    then "Invalid Length,needs: " +:+ FieldError.Param fe
               else if String.eqb (FieldError.Tag fe) "alpha" then "Letters Only"
               else Strings.Title (FieldError.Tag fe))
          (filter (fun fe => FieldError.Field fe = Field.Name field) fes))%list.
Proof.
  intros Hvd Hfes. unfold Validate. run_method. rewrite Hvd, Hfes.
  intros Hshown. apply present_shape in Hshown as (_ & _ & ->).
  cbn [Field.Errors snd]. f_equal. clear Hvd Hfes.
  induction fes as [|fe fes IH]; [reflexivity|]. cbn [map].
  destruct (decide (FieldError.Field fe = Field.Name field)) as [Hname|Hname].
  - rewrite !filter_cons_True by done. cbn [map]. by rewrite IH.
  - by rewrite !filter_cons_False.
Qed.

(** ** Messages are never empty *)

Lemma EncodeRune_nonempty (r : N) (out : string) :
  Utf8.EncodeRune r +:+ out <> "".
Proof.
  unfold Utf8.EncodeRune.
  destruct (r <=? 127)%N; [done|]. destruct (r <=? 2047)%N; [done|].
  cbv zeta. by destruct (_ <=? 65535)%N.
Qed.

(** [strings.Title] erases no string. *)
Lemma Title_empty (s : string) : Strings.Title s = "" -> s = "".
Proof.
  destruct s as [|c s]; [done|]. unfold Strings.Title, Utf8.runes.
  cbn [Utf8.runes_from Strings.Title_from fold_right].
  intros H. by apply EncodeRune_nonempty in H.
Qed.

(** X16: the message of a validation failure is empty only when both
    its override and its kind are empty. *)
Theorem Error_empty_iff (v : ValidationError.t) :
  ValidationError.Error v = ""
  <-> ValidationError.Override v = "" /\ ValidationError.Type_ v = "".
Proof.
  destruct v as [fld val ty ov prm]. unfold ValidationError.Error. simpl.
  destruct ov as [|c ov]; simpl.
  - destruct (String.eqb_spec ty "email") as [->|_]; [by split; [|intros [_ ?]]|].
    destruct (String.eqb_spec ty "len") as [->|_]; [by split; [|intros [_ ?]]|].
    destruct (String.eqb_spec ty "alpha") as [->|_]; [by split; [|intros [_ ?]]|].
    split; [|by intros [_ ->]].
    intros Htitle. by apply Title_empty in Htitle.
  - by split; [|intros [? _]].
Qed.

(** ** Decoding a post *)

(** X17: [DecodePost] decodes POST requests only.  For any other
    method, and for a form without decoder, the holder is left as it is
    and the error is [ErrInvalidMethod]; a nil error means that the
    request was a POST, that the form has a decoder and that decoding
    the parsed form into the holder succeeded; and the decoder's own
    error is handed on as it is. *)
Theorem DecodePost_decodes_posts_only
  (ParseForm : Request.t -> gmap string (list string))
  (decoder : option Decoder.t) (req : Request.t) (holder : govalue) :
  (Request.Method req <> "POST" \/ decoder = None ->
   DecodePost ParseForm decoder req holder = (holder, Some ErrInvalidMethod))
  /\ (forall decoded,
        DecodePost ParseForm decoder req holder = (decoded, None) ->
        Request.Method req = "POST"
        /\ exists d, decoder = Some d
                     /\ Decoder.Decode d holder (ParseForm req) = (decoded, None))
  /\ (forall d,
        Request.Method req = "POST" -> decoder = Some d ->
        DecodePost ParseForm decoder req holder
        = Decoder.Decode d holder (ParseForm req)).
Proof.
  unfold DecodePost, MethodPost. split; [|split].
  - intros [Hm | ->].
    + apply String.eqb_neq in Hm. by rewrite Hm.
    + by destruct (String.eqb _ _).
  - intros decoded.
    destruct (String.eqb_spec (Request.Method req) "POST") as [Hm|_];
      [|discriminate].
    destruct decoder as [d|]; [|discriminate].
    destruct (Decoder.Decode d holder (ParseForm req)) as [decoded' [e|]] eqn:Hd;
      [discriminate|].
    intros [= <-]. split; [done|]. by exists d.
  - intros d -> ->. simpl.
    by destruct (Decoder.Decode d holder (ParseForm req)) as [decoded [e|]].
Qed.

(** ** What [New] returns *)

(** X18: when [New] returns, its error is nil exactly when the template
    file was read; the form holds the parse of the file's text, or of
    the built-in template when the read failed, together with the
    validator, and has no skip entry, no select map and no prefix.
    [New] panics exactly when that text does not parse. *)
Theorem New_result
  (basetmpl basepath : string) (ReadFile : string -> string + error)
  (Join : string -> string -> string) (Parse : string -> Template.t + error)
  (validator_New : Validator.t) (pth : list string) :
  (forall form errf,
     New basetmpl basepath ReadFile Join Parse validator_New pth
     = Returned (form, errf) ->
     (errf = None <-> exists text, ReadFile (New_path basepath Join pth) = inl text)
     /\ exists tpl,
          Parse (match ReadFile (New_path basepath Join pth) with
                 | inl text => text
                 | inr _ => basetmpl
                 end) = inl tpl
          /\ form = Some (Form.mk (Some tpl) (Some validator_New) ∅ "" "" "" [] ∅))
  /\ (forall e,
        New basetmpl basepath ReadFile Join Parse validator_New pth = Panicked e
        <-> Parse (match ReadFile (New_path basepath Join pth) with
                   | inl text => text
                   | inr _ => basetmpl
                   end) = inr e).
Proof.
  unfold New. split.
  - intros form errf.
    destruct (ReadFile _) as [text|e]; destruct (Parse _) as [tpl|e'];
      try discriminate; intros [= <- <-].
    + split; [split; [by eexists | done] | by eexists].
    + split; [split; [discriminate | by intros [? ?]] | by eexists].
  - intros e.
    destruct (ReadFile _) as [text|e0]; destruct (Parse _) as [tpl|e'];
      split; intros H; by simplify_eq.
Qed.

End PackageProperties.

(** ** Extraction of nil pointers *)

(** Induction over types, with the members of structs and pointees. *)
Lemma gotype_members_ind (P : gotype -> Prop) :
  (forall k, P (TBasic k)) ->
  (forall members, Forall (fun m => P m.2) members -> P (TStruct members)) ->
  (forall pointee, Forall (fun m => P m.2) pointee -> P (TPtr pointee)) ->
  forall ty, P ty.
Proof.
  intros Hbasic Hstruct Hptr. fix IH 1. intros [k|members|pointee].
  - apply Hbasic.
  - apply Hstruct. induction members as [|[[n tg] t] members IHm];
      constructor; [apply IH | exact IHm].
  - apply Hptr. induction pointee as [|[[n tg] t] pointee IHm];
      constructor; [apply IH | exact IHm].
Qed.

Section ExtractionProperties.

Variable humanize : string -> string.
Variable sanitize : string -> string.
Variable excluded : gmap string Extraction.option_value -> bool.

#[local] Abbreviation walk := (Extraction.walk humanize sanitize excluded).
#[local] Abbreviation walk_members :=
  (Extraction.walk_members humanize sanitize excluded).
#[local] Abbreviation leaf := (Extraction.leaf humanize sanitize).

Lemma walk_unfold (ancestry : list string) (name tag : string) (ty : gotype)
  (d : godata) :
  walk ancestry name tag ty d
  = if excluded (Extraction.parse_tag tag) then []
    else match ty with
         | TBasic k => [leaf ancestry name (Extraction.parse_tag tag) k d]
         | TStruct members =>
             walk_members (ancestry ++ [name]) members (Extraction.members_of d)
         | TPtr pointee =>
             match d with
             | DPtr (Some target) => walk_members (ancestry ++ [name]) pointee target
             | _ => walk_members (ancestry ++ [name]) pointee
                      (Extraction.members_of (zero (TStruct pointee)))
             end
         end.
Proof.
  assert (Hinner : forall members ds,
    (fix inner (members : list (string * string * gotype)) (ds : list godata)
       {struct members} : list Field.t :=
       match members, ds with
       | (n, tg, t) :: members', d' :: ds' =>
           (walk (ancestry ++ [name]) n tg t d' ++ inner members' ds')%list
       | _, _ => []
       end) members ds
    = walk_members (ancestry ++ [name]) members ds).
  { induction members as [|[[n tg] t] members IHm]; intros [|d' ds];
      try reflexivity.
    cbn [Extraction.walk_members]. by rewrite <- IHm. }
  destruct ty as [k|members|pointee]; cbn [Extraction.walk];
    destruct (excluded _); try reflexivity.
  - apply Hinner.
  - destruct d as [a|ds|[target|]]; apply Hinner.
Qed.

Lemma has_type_unfold (ty : gotype) (d : godata) :
  Extraction.has_type ty d
  = match ty, d with
    | TBasic KString, DBasic (Str _) => true
    | TBasic KBool, DBasic (Boolean _) => true
    | TBasic KNumber, DBasic (Int _) => true
    | TStruct members, DStruct ds => Extraction.have_types members ds
    | TPtr _, DPtr None => true
    | TPtr pointee, DPtr (Some target) => Extraction.have_types pointee target
    | _, _ => false
    end.
Proof.
  destruct ty as [[]|members|pointee]; destruct d as [[]|ds|[target|]];
    reflexivity.
Qed.

Lemma walk_members_cons (ancestry : list string) (n tg : string) (t : gotype)
  (members : list (string * string * gotype)) (d : godata) (ds : list godata) :
  walk_members ancestry ((n, tg, t) :: members) (d :: ds)
  = (walk ancestry n tg t d ++ walk_members ancestry members ds)%list.
Proof. reflexivity. Qed.

(** The members of a record are walked one after the other. *)
Lemma walk_members_app (ancestry : list string)
  (before after : list (string * string * gotype))
  (dbefore dafter : list godata) :
  length before = length dbefore ->
  walk_members ancestry (before ++ after) (dbefore ++ dafter)
  = (walk_members ancestry before dbefore
     ++ walk_members ancestry after dafter)%list.
Proof.
  revert dbefore. induction before as [|[[n tg] t] before IHb];
    intros [|d dbefore] Hlen; try discriminate.
  - reflexivity.
  - simpl app. rewrite !walk_members_cons, IHb by (simpl in Hlen; lia).
    by rewrite <- app_assoc.
Qed.

(** The fields of a zero value have empty values. *)
Lemma walk_zero_values (ty : gotype) :
  forall ancestry name tag,
    Forall (fun field => Field.Value field = Str "")
      (walk ancestry name tag ty (zero ty)).
Proof.
  assert (Hmembers : forall members : list (string * string * gotype),
    Forall (fun m => forall ancestry name tag,
              Forall (fun field => Field.Value field = Str "")
                (walk ancestry name tag m.2 (zero m.2))) members ->
    forall ancestry,
      Forall (fun field => Field.Value field = Str "")
        (walk_members ancestry members (map (fun m => zero m.2) members))).
  { intros members Hall ancestry.
    induction Hall as [|[[n tg] t] members Ht _ IHm]; [constructor|].
    simpl map. rewrite walk_members_cons. apply Forall_app. split; [apply Ht|apply IHm]. }
  induction ty as [k|members IHm|pointee IHm] using gotype_members_ind;
    intros ancestry name tag; rewrite walk_unfold;
    destruct (excluded _); try constructor.
  - by destruct k.
  - constructor.
  - by apply Hmembers.
  - by apply Hmembers.
Qed.

(** The zero value of a type fits it. *)
Lemma has_type_zero (ty : gotype) : Extraction.has_type ty (zero ty) = true.
Proof.
  induction ty as [k|members IHm|pointee IHm] using gotype_members_ind;
    rewrite has_type_unfold.
  - by destruct k.
  - cbn [zero]. induction IHm as [|[[n tg] t] members Ht _ IH]; [reflexivity|].
    cbn [map Extraction.have_types snd] in *. by rewrite Ht, IH.
  - reflexivity.
Qed.

Lemma have_types_zero (members : list (string * string * gotype)) :
  Extraction.have_types members (map (fun m => zero m.2) members) = true.
Proof.
  induction members as [|[[n tg] t] members IH]; [reflexivity|].
  simpl. by rewrite has_type_zero, IH.
Qed.

(** The names of the fields depend on the type only, as long as the
    data fits it. *)
Lemma walk_names_of_type (ty : gotype) :
  forall ancestry name tag d1 d2,
    Extraction.has_type ty d1 = true ->
    Extraction.has_type ty d2 = true ->
    map Field.Name (walk ancestry name tag ty d1)
    = map Field.Name (walk ancestry name tag ty d2).
Proof.
  assert (Hmembers : forall members : list (string * string * gotype),
    Forall (fun m => forall ancestry name tag d1 d2,
              Extraction.has_type m.2 d1 = true ->
              Extraction.has_type m.2 d2 = true ->
              map Field.Name (walk ancestry name tag m.2 d1)
              = map Field.Name (walk ancestry name tag m.2 d2)) members ->
    forall ancestry ds1 ds2,
      Extraction.have_types members ds1 = true ->
      Extraction.have_types members ds2 = true ->
      map Field.Name (walk_members ancestry members ds1)
      = map Field.Name (walk_members ancestry members ds2)).
  { intros members Hall ancestry.
    induction Hall as [|[[n tg] t] members Ht _ IHm];
      intros [|d1 ds1] [|d2 ds2] H1 H2; try discriminate; [reflexivity|].
    simpl in H1, H2. apply andb_true_iff in H1 as [H1 H1'], H2 as [H2 H2'].
    rewrite !walk_members_cons, !map_app.
    f_equal; [by apply Ht | by apply IHm]. }
  induction ty as [k|members IHm|pointee IHm] using gotype_members_ind;
    intros ancestry name tag d1 d2 H1 H2; rewrite !walk_unfold;
    destruct (excluded _); try reflexivity;
    rewrite has_type_unfold in H1, H2.
  - destruct d1, d2; try discriminate; apply Hmembers; done.
  - destruct d1 as [?|?|[t1|]], d2 as [?|?|[t2|]]; try discriminate;
      apply Hmembers; try done; apply have_types_zero.
Qed.

(** Members that are all leaves and not opted out give one field
    each, named under the ancestry. *)
Lemma walk_members_leaf_names (ancestry : list string)
  (members : list (string * string * gotype)) (ds : list godata) :
  Forall (fun m => (exists k, m.2 = TBasic k)
                   /\ excluded (Extraction.parse_tag m.1.2) = false) members ->
  length ds = length members ->
  map Field.Name (walk_members ancestry members ds)
  = map (fun m => Extraction.resolve ancestry m.1.1) members.
Proof.
  intros Hall. revert ds.
  induction Hall as [|[[n tg] t] members [[k Hk] Hin] _ IHm];
    intros [|d ds] Hlen; try discriminate; [reflexivity|].
  simpl in Hk, Hin. subst t.
  rewrite walk_members_cons, walk_unfold, Hin. simpl.
  f_equal. apply IHm. simpl in Hlen. lia.
Qed.

(** C8: a pointer member that is nil is walked as the zero value of
    its pointee struct is: every field it yields has an empty [Value];
    the fields have the names that a set pointer yields, whatever
    fitting data it points to; when the pointee's members are leaves
    that are not opted out, there is one field per pointee member, in
    declaration order, named under the pointer member; and in the
    record these fields stand between the fields of the members
    declared before and after. *)
Theorem nil_pointer_member_is_walked (ancestry : list string) (name tag : string)
  (pointee : list (string * string * gotype)) :
  walk ancestry name tag (TPtr pointee) (DPtr None)
  = walk ancestry name tag (TStruct pointee) (zero (TStruct pointee))
  /\ Forall (fun field => Field.Value field = Str "")
       (walk ancestry name tag (TPtr pointee) (DPtr None))
  /\ (forall target,
        Extraction.have_types pointee target = true ->
        map Field.Name (walk ancestry name tag (TPtr pointee) (DPtr None))
        = map Field.Name
            (walk ancestry name tag (TPtr pointee) (DPtr (Some target))))
  /\ (excluded (Extraction.parse_tag tag) = false ->
      Forall (fun m => (exists k, m.2 = TBasic k)
                       /\ excluded (Extraction.parse_tag m.1.2) = false)
        pointee ->
      map Field.Name (walk ancestry name tag (TPtr pointee) (DPtr None))
      = map (fun m => Extraction.resolve (ancestry ++ [name]) m.1.1) pointee)
  /\ (forall before after dbefore dafter,
        length before = length dbefore ->
        walk_members ancestry (before ++ (name, tag, TPtr pointee) :: after)
          (dbefore ++ DPtr None :: dafter)
        = (walk_members ancestry before dbefore
           ++ walk ancestry name tag (TPtr pointee) (DPtr None)
           ++ walk_members ancestry after dafter)%list).
Proof.
  split; [|split; [|split; [|split]]].
  - by rewrite !walk_unfold.
  - apply (walk_zero_values (TPtr pointee)).
  - intros target Hfits. apply walk_names_of_type; by rewrite has_type_unfold.
  - intros Htag Hleaves. rewrite walk_unfold, Htag.
    apply walk_members_leaf_names; [done|]. simpl. by rewrite length_map.
  - intros before after dbefore dafter Hlen.
    by rewrite walk_members_app, walk_members_cons.
Qed.

End ExtractionProperties.

Lemma nil_pointer_member_is_walked_witness :
  map Field.Name
    (Extraction.walk (fun s => s) (fun s => s) (fun _ => false) [] "Address" ""
       (TPtr sample_address) (DPtr None))
  = ["Address.Street1"; "Address.City"; "Address.Zip"].
Proof.
  refine (proj1 (proj2 (proj2 (proj2
            (nil_pointer_member_is_walked (fun s => s) (fun s => s)
               (fun _ => false) [] "Address" "" sample_address)))) eq_refl _).
  repeat constructor; by eexists.
Defined.

(** The scenario of the spec: a customer whose address is nil. *)
Example extract_customer_without_address :
  match Extraction.extract (fun s => s) (fun s => s) (fun _ => false)
          (mkValue sample_customer (DStruct [DBasic (Str ""); DPtr None]))
  with
  | Returned fs => map (fun field => (Field.Name field, Field.Label field,
                                      Field.Value field)) fs
  | Panicked _ => []
  end
  = [("Name", "Name", Str "");
     ("Address.Street1", "Street", Str "");
     ("Address.City", "City", Str "");
     ("Address.Zip", "Postal Code", Str "")].
Proof. vm_compute. reflexivity. Qed.

(** * The tables on ASCII strings *)

Lemma runes_ascii (s : string) :
  Utf8.is_ascii s = true ->
  Utf8.runes s = map N_of_ascii (list_ascii_of_string s).
Proof.
  unfold Utf8.runes, Utf8.is_ascii. induction s as [|c s IH]; [reflexivity|].
  cbn [list_ascii_of_string forallb map]. intros [Hc Hs]%andb_true_iff.
  cbn [Utf8.runes_from Utf8.DecodeRune]. rewrite Hc. cbn [fst snd Nat.sub].
  f_equal. by apply IH.
Qed.

Lemma Title_from_ascii (t1 t2 : Unicode.tables) (prev : N) (rs : list N) :
  (prev <=? 127)%N = true ->
  forallb (fun r => (r <=? 127)%N) rs = true ->
  @Strings.Title_from t1 prev rs = @Strings.Title_from t2 prev rs.
Proof.
  revert prev. induction rs as [|r rs IH]; intros prev Hprev; [reflexivity|].
  cbn [forallb Strings.Title_from]. intros [Hr Hrs]%andb_true_iff.
  unfold Strings.isSeparator, Unicode.ToTitle. rewrite Hprev, Hr.
  f_equal. by apply IH.
Qed.

(** On a string of ASCII bytes [strings.Title] consults no table, so
    that the tables chosen for the sample data below do not matter. *)
Lemma Title_ascii (t1 t2 : Unicode.tables) (s : string) :
  Utf8.is_ascii s = true -> @Strings.Title t1 s = @Strings.Title t2 s.
Proof.
  intros Hs. unfold Strings.Title. rewrite (runes_ascii s Hs).
  rewrite (Title_from_ascii t1 t2); [reflexivity | reflexivity |].
  unfold Utf8.is_ascii in Hs. rewrite forallb_forall in *. intros r Hin.
  apply in_map_iff in Hin as (c & <- & Hc). apply Hs in Hc.
  apply N.ltb_lt in Hc. apply N.leb_le. lia.
Qed.

(** * The properties on sample data *)

#[local] Existing Instance sample_tables.

Example Title_words :
  Strings.Title "needs two_words here" = "Needs Two_words Here".
Proof. reflexivity. Qed.

Lemma Error_message_witness :
  ValidationError.Error (ValidationError.mk "Zip" "1" "len" "" (Str "5"))
  = "Invalid Length,needs: 5"
  /\ ValidationError.Error (ValidationError.mk "Name" "" "required" "" (Str ""))
     = "Required"
  /\ ValidationError.Error (ValidationError.mk "Name" "" "required" "Pflichtfeld" Nil)
     = "Pflichtfeld".
Proof.
  split; [|split].
  - apply (Error_message (ValidationError.mk "Zip" "1" "len" "" (Str "5")));
      reflexivity.
  - apply (Error_message (ValidationError.mk "Name" "" "required" "" (Str "")));
      [reflexivity | discriminate | discriminate | discriminate].
  - apply (Error_message (ValidationError.mk "Name" "" "required" "Pflichtfeld" Nil)).
    discriminate.
Defined.

(** C1, as stated, fails: with the single skip entry ["Address."], the
    field named ["MailAddress.Street1"] does not have the prefix
    ["Address."], and yet the loop body dumps it. *)
Lemma skip_prefix_counterexample :
  Strings.HasPrefix "MailAddress.Street1" "Address." = false
  /\ present map_to_list (sample_field "MailAddress.Street1" "text" (Str "x")) []
       (sample_form "" ["Address."] ∅)
     = Returned (None, sample_form "" ["Address."] ∅).
Proof. split; reflexivity. Qed.

Lemma skip_subtree_removes_containing_witness :
  exists shown f',
    (SkipField "Address."
     ≫= fun _ => present map_to_list
                   (sample_field "Address.Street1" "text" (Str "")) [])
      (sample_form "" [] ∅)
    = Returned (shown, f')
    /\ Form.Skip f' = ["Address."]
    /\ (shown = None
        <-> Strings.Contains "Address.Street1" "Address." = true)
    /\ (Strings.HasPrefix "Address.Street1" "Address." = true -> shown = None).
Proof.
  apply (skip_subtree_removes_containing map_to_list (sample_form "" [] ∅)
           (sample_field "Address.Street1" "text" (Str "")) [] "Address").
  reflexivity.
Defined.

(** C2, as stated, fails: with the map [{"CA": "California", "NY":
    "New York"}] registered under ["State"] and the value ["CA"], no
    entry's mapped value equals the field's [Value], so [SelectValue]
    stays as extracted and is not ["California"]. *)
Lemma select_keyed_by_code_counterexample :
  exists shown,
    (Select "State" {["CA" := Str "California"; "NY" := Str "New York"]}
     ≫= fun _ => present map_to_list
                   (sample_field "State" "select" (Str "CA")) [])
      (sample_form "" [] ∅)
    = Returned (Some shown,
                sample_form "" []
                  {["State" := {["CA" := Str "California";
                                 "NY" := Str "New York"]}]})
    /\ Field.SelectValue shown = ""
    /\ Field.SelectValue shown <> "California".
Proof. eexists. split; [vm_compute; reflexivity|]. split; [reflexivity|discriminate]. Qed.

Lemma select_value_is_label_of_value_witness :
  exists shown f',
    present map_to_list (sample_field "State" "select" (Str "CA")) []
      (sample_form "" []
         {["State" := {["California" := Str "CA"; "New York" := Str "NY"]}]})
    = Returned (Some shown, f')
    /\ Field.Items shown = {["California" := Str "CA"; "New York" := Str "NY"]}
    /\ Field.SelectValue shown = "California".
Proof.
  eexists _, _. split; [vm_compute; reflexivity|].
  eapply (select_value_is_label_of_value map_to_list
            (sample_form "" []
               {["State" := {["California" := Str "CA"; "New York" := Str "NY"]}]})
            _ (sample_field "State" "select" (Str "CA")) _ []
            {["California" := Str "CA"; "New York" := Str "NY"]} "California").
  - reflexivity.
  - by left.
  - reflexivity.
  - reflexivity.
  - intros other. simpl.
    destruct (decide (other = "California")) as [->|Hne1]; [done|].
    rewrite lookup_insert_ne by done.
    destruct (decide (other = "New York")) as [->|Hne2].
    + rewrite lookup_singleton_eq. discriminate.
    + rewrite lookup_singleton_ne by done. discriminate.
  - vm_compute. reflexivity.
Defined.

(** C3, as stated, fails: on a form with the prefix ["user."], the field
    ["Email"] is shown with [Name] and [ID] as extracted, without the
    prefix, and a template that writes [Name] as the name attribute
    writes ["Email"]. *)
Lemma prefix_not_prepended_counterexample :
  exists shown,
    present map_to_list (sample_field "Email" "email" (Str "")) []
      (sample_form "user." [] ∅)
    = Returned (Some shown, sample_form "user." [] ∅)
    /\ Field.Name shown = "Email"
    /\ Field.ID shown = "Email"
    /\ Field.Name shown <> "user." +:+ "Email"
    /\ Render (fun _ => Returned [sample_field "Email" "email" (Str "")])
         map_to_list (mkValue (TStruct []) (DStruct [])) []
         (sample_form "user." [] ∅)
       = Returned ("<input name=Email>", None, sample_form "user." [] ∅).
Proof.
  eexists. split; [vm_compute; reflexivity|].
  split; [reflexivity|]. split; [reflexivity|]. split; [discriminate|].
  vm_compute. reflexivity.
Qed.

Lemma present_stores_prefix_witness :
  exists shown,
    Field.Prefix shown = "user."
    /\ Field.Name shown = "Email"
    /\ Field.ID shown = "Email".
Proof.
  eexists.
  apply (present_stores_prefix map_to_list (sample_form "user." [] ∅)
           (sample_form "user." [] ∅) (sample_field "Email" "email" (Str "")) _ []).
  vm_compute. reflexivity.
Defined.

Lemma errors_attached_by_name_witness :
  exists shown,
    Field.Name shown = "Email" /\ Field.Errors shown = ["Invalid Email"].
Proof.
  eexists.
  pose proof (errors_attached_by_name map_to_list (sample_form "" [] ∅)
                (sample_form "" [] ∅) (sample_field "Email" "email" (Str "x")) _
                [ValidationError.mk "Email" "x" "email" "" (Str "")]
                ltac:(vm_compute; reflexivity)) as (Hname & _ & Hemail).
  split; [exact Hname|].
  exact (Hemail eq_refl "x" (Str "") eq_refl).
Defined.

Example errors_in_report_order :
  exists shown,
    present map_to_list (sample_field "Email" "email" (Str "x"))
      [ValidationError.mk "Name" "" "required" "" (Str "");
       ValidationError.mk "Email" "x" "email" "" (Str "");
       ValidationError.mk "Email" "x" "len" "" (Str "5")]
      (sample_form "" [] ∅)
    = Returned (Some shown, sample_form "" [] ∅)
    /\ Field.Errors shown = ["Invalid Email"; "Invalid Length,needs: 5"].
Proof. eexists. split; [vm_compute; reflexivity | reflexivity]. Qed.

(** The registration methods do write: the predicate is not vacuous. *)
Example SkipField_is_not_read_only : ~ read_only (SkipField "Address.").
Proof.
  intros H. specialize (H (sample_form "" [] ∅) tt _ eq_refl). discriminate.
Qed.

Lemma Render_leaves_configuration_witness :
  exists f',
    Form.Skip f' = ["Address."]
    /\ Form.selectMap f' = {["State" := {["California" := Str "CA"]}]}
    /\ Form.Prefix f' = "user.".
Proof.
  exists (sample_form "user." ["Address."]
            {["State" := {["California" := Str "CA"]}]}).
  refine (Render_leaves_configuration
           (fun _ => Returned [sample_field "Name" "text" (Str "Ann");
                               sample_field "Address.Street1" "text" (Str "");
                               sample_field "State" "select" (Str "CA")])
           map_to_list (mkValue (TStruct []) (DStruct []))
           [[ValidationError.mk "Name" "" "required" "" (Str "")]]
           (sample_form "user." ["Address."]
              {["State" := {["California" := Str "CA"]}]})
           (sample_form "user." ["Address."]
              {["State" := {["California" := Str "CA"]}]})
           ("<input name=Name><input name=State>", None) _).
  vm_compute. reflexivity.
Defined.

Lemma RenderField_renders_named_fields_witness :
  RenderField
    (fun _ => Returned [sample_field "Name" "text" (Str "Ann");
                        sample_field "Address.Street1" "text" (Str "")])
    map_to_list (mkValue (TStruct []) (DStruct [])) "Phone" []
    (sample_form "" ["Address."] ∅)
  = Returned ("", None, sample_form "" ["Address."] ∅)
  /\ RenderField
       (fun _ => Returned [sample_field "Name" "text" (Str "Ann");
                           sample_field "Address.Street1" "text" (Str "")])
       map_to_list (mkValue (TStruct []) (DStruct [])) "Address.Street1" []
       (sample_form "" ["Address."] ∅)
     = Returned ("", None, sample_form "" ["Address."] ∅).
Proof.
  split.
  - refine (proj1 (proj2 (RenderField_renders_named_fields _ _ _ _ _ _)) _ eq_refl _).
    intros field Hin. apply list_elem_of_In in Hin. simpl in Hin.
    destruct Hin as [<-|[<-|[]]]; discriminate.
  - refine (proj2 (proj2 (RenderField_renders_named_fields _ _ _ _ _ _)) _ eq_refl _).
    reflexivity.
Defined.

Example RenderField_one_field :
  RenderField
    (fun _ => Returned [sample_field "Name" "text" (Str "Ann");
                        sample_field "Email" "email" (Str "")])
    map_to_list (mkValue (TStruct []) (DStruct [])) "Email" []
    (sample_form "" [] ∅)
  = Returned ("<input name=Email>", None, sample_form "" [] ∅).
Proof. vm_compute. reflexivity. Qed.

Lemma Validate_outcomes_distinct_witness :
  exists ok vee,
    Validate (mkValue (TStruct [("Email", "", TBasic KString)])
                (DStruct [DBasic (Str "x")]))
      (sample_validating_form
         (Some (ValidationErrors [FieldError.mk "Email" (Str "x") "email" ""])))
    = Returned (ok, vee,
                sample_validating_form
                  (Some (ValidationErrors
                           [FieldError.mk "Email" (Str "x") "email" ""])))
    /\ ok = false /\ vee <> [].
Proof.
  destruct (Validate_outcomes_distinct
              (sample_validating_form
                 (Some (ValidationErrors
                          [FieldError.mk "Email" (Str "x") "email" ""])))
              (Validator.mk (fun _ =>
                 Some (ValidationErrors
                         [FieldError.mk "Email" (Str "x") "email" ""])))
              (mkValue (TStruct [("Email", "", TBasic KString)])
                 (DStruct [DBasic (Str "x")]))
              eq_refl
              ltac:(intros errs [= <-]; discriminate))
    as (ok & vee & Hrun & _ & _ & Hfailed).
  exists ok, vee. split; [exact Hrun|].
  apply Hfailed. eexists. split; [reflexivity|].
  vm_compute in Hrun. injection Hrun as _ <-. reflexivity.
Defined.

(** Without the guarantee the two failures would coincide: a validator
    that handed out an empty list of field errors would be reported as
    its internal error is. *)
Example Validate_empty_error_list (holder : govalue) :
  Validate holder (sample_validating_form (Some (ValidationErrors [])))
  = Returned (false, [], sample_validating_form (Some (ValidationErrors [])))
  /\ Validate holder (sample_validating_form (Some InvalidValidationError))
     = Returned (false, [], sample_validating_form (Some InvalidValidationError)).
Proof. split; reflexivity. Qed.

Lemma New_returns_form_on_read_error_witness :
  exists f,
    New "<input name={{.Name}}>" "/tmp/form"
      (fun _ => inr "open /tmp/form/basic.html: no such file or directory")
      (fun dir p => dir +:+ p) (fun _ => inl sample_template)
      (Validator.mk (fun _ => None)) ["/basic.html"]
    = Returned (Some f,
                Some "open /tmp/form/basic.html: no such file or directory")
    /\ Form.Tpl f = Some sample_template.
Proof.
  destruct (proj2 (New_returns_form_on_read_error "<input name={{.Name}}>"
                     "/tmp/form"
                     (fun _ => inr "open /tmp/form/basic.html: no such file or directory")
                     (fun dir p => dir +:+ p) (fun _ => inl sample_template)
                     (Validator.mk (fun _ => None)) ["/basic.html"])
              _ sample_template eq_refl eq_refl) as (f & Hnew & Htpl & _).
  exists f. split; [exact Hnew | exact Htpl].
Defined.

(** A template file that is read but does not parse makes [New] panic,
    by [template.Must]. *)
Example New_panics_on_malformed_file :
  New "<input name={{.Name}}>" "" (fun _ => inl "{{if}}") (fun dir p => dir +:+ p)
    (fun text => if String.eqb text "{{if}}" then inr "missing value for if"
                 else inl sample_template)
    (Validator.mk (fun _ => None)) ["basic.html"]
  = Panicked "missing value for if".
Proof. reflexivity. Qed.

Lemma field_dumped_iff_entry_matches_witness :
  exists shown,
    present map_to_list (sample_field "Address.City" "text" (Str "")) []
      (sample_form "" ["Name"; "Address."] ∅)
    = Returned (shown, sample_form "" ["Name"; "Address."] ∅)
    /\ (shown = None
        <-> Exists (fun sv => sv = "Address.City"
                              \/ ((exists s, sv = s +:+ ".")
                                  /\ Strings.Contains "Address.City" sv = true))
              ["Name"; "Address."]).
Proof.
  refine (field_dumped_iff_entry_matches map_to_list
            (sample_form "" ["Name"; "Address."] ∅)
            (sample_field "Address.City" "text" (Str "")) [] _).
  repeat constructor; discriminate.
Defined.

Lemma skip_order_is_irrelevant_witness :
  skip_dump ["Name"; "Address."] "Address.City"
  = skip_dump ["Address."; "Name"] "Address.City".
Proof.
  apply skip_order_is_irrelevant.
  - repeat constructor; discriminate.
  - apply perm_swap.
Defined.

Lemma empty_skip_entry_panics_witness :
  Render (fun _ => Returned [sample_field "Name" "text" (Str "Ann")]) map_to_list
    (mkValue (TStruct []) (DStruct [])) [] (sample_form "" ["Zip"; ""] ∅)
  = Panicked "slice bounds out of range".
Proof.
  refine (proj2 (proj2 (empty_skip_entry_panics
            (fun _ => Returned [sample_field "Name" "text" (Str "Ann")])
            map_to_list (sample_form "" ["Zip"; ""] ∅)
            (sample_field "Name" "text" (Str "Ann")) [] _)
            ["Zip"] [] eq_refl eq_refl) _ [] [] eq_refl).
  discriminate.
Defined.

Lemma SkipField_keeps_fields_dumped_witness :
  (SkipField "" ≫= fun _ => present map_to_list
                               (sample_field "Name" "text" (Str "Ann")) [])
    (sample_form "" ["Name"] ∅)
  = Returned (None, sample_form "" ["Name"; ""] ∅).
Proof.
  refine (SkipField_keeps_fields_dumped map_to_list (sample_form "" ["Name"] ∅)
            (sample_field "Name" "text" (Str "Ann")) [] "" _).
  reflexivity.
Defined.

Lemma Render_returns_on_sound_form_witness :
  exists out,
    Render (fun _ => Returned [sample_field "Name" "text" (Str "Ann");
                              sample_field "Address.City" "text" (Str "")])
      map_to_list (mkValue (TStruct []) (DStruct [])) []
      (sample_form "" ["Address."] ∅)
    = Returned (out, sample_form "" ["Address."] ∅).
Proof.
  refine (proj1 (Render_returns_on_sound_form _ map_to_list _ []
                   (sample_form "" ["Address."] ∅) sample_template _ _ eq_refl
                   eq_refl)).
  repeat constructor; discriminate.
Defined.

Lemma Render_error_discards_html_witness :
  exists html,
    Render (fun _ => Returned [sample_field "Name" "text" (Str "Ann");
                              sample_field "Email" "email" (Str "")])
      map_to_list (mkValue (TStruct []) (DStruct [])) [] sample_failing_form
    = Returned (html, Some "no input for email", sample_failing_form)
    /\ html = "".
Proof.
  eexists. split; [vm_compute; reflexivity|].
  refine (proj1 (Render_error_discards_html
                   (fun _ => Returned [sample_field "Name" "text" (Str "Ann");
                                       sample_field "Email" "email" (Str "")])
                   map_to_list (mkValue (TStruct []) (DStruct [])) []
                   sample_failing_form sample_failing_form ""
                   "no input for email" _)).
  vm_compute. reflexivity.
Defined.

Lemma Render_html_is_concatenation_witness :
  Render (fun _ => Returned [sample_field "Name" "text" (Str "Ann");
                            sample_field "Address.City" "text" (Str "");
                            sample_field "Email" "email" (Str "")])
    map_to_list (mkValue (TStruct []) (DStruct [])) []
    (sample_form "" ["Address."] ∅)
  = Returned ("<input name=Name><input name=Email>", None,
              sample_form "" ["Address."] ∅).
Proof.
  refine (Render_html_is_concatenation
            (fun _ => Returned [sample_field "Name" "text" (Str "Ann");
                                sample_field "Address.City" "text" (Str "");
                                sample_field "Email" "email" (Str "")])
            map_to_list (mkValue (TStruct []) (DStruct [])) []
            (sample_form "" ["Address."] ∅) sample_template _ _ eq_refl _ eq_refl).
  - repeat constructor; discriminate.
  - intros field. by eexists.
Defined.

Lemma RenderField_of_distinct_names_witness :
  RenderField (fun _ => Returned [sample_field "Name" "text" (Str "Ann");
                                 sample_field "Email" "email" (Str "")])
    map_to_list (mkValue (TStruct []) (DStruct [])) "Email" []
    (sample_form "" [] ∅)
  = Render (fun _ => Returned [sample_field "Email" "email" (Str "")])
      map_to_list (mkValue (TStruct []) (DStruct [])) [] (sample_form "" [] ∅).
Proof.
  refine (RenderField_of_distinct_names
            (fun _ => Returned [sample_field "Name" "text" (Str "Ann");
                                sample_field "Email" "email" (Str "")])
            map_to_list (mkValue (TStruct []) (DStruct [])) []
            (sample_form "" [] ∅) _ (sample_field "Email" "email" (Str ""))
            eq_refl _ _).
  - apply NoDup_cons. split; [|apply NoDup_singleton].
    intros Hin. apply list_elem_of_singleton in Hin. discriminate.
  - apply elem_of_cons. right. apply elem_of_cons. by left.
Defined.

Lemma SelectValue_is_a_matching_label_witness :
  exists shown,
    present map_to_list (sample_field "Size" "checkbox" (Int 1)) []
      (sample_form "" [] {["Size" := {["S" := Int 1; "Small" := Int 1]}]})
    = Returned (Some shown,
                sample_form "" [] {["Size" := {["S" := Int 1; "Small" := Int 1]}]})
    /\ ({["S" := Int 1; "Small" := Int 1]} : gmap string any)
       !! Field.SelectValue shown = Some (Int 1).
Proof.
  eexists. split; [vm_compute; reflexivity|].
  refine (proj1 (SelectValue_is_a_matching_label map_to_list
                   (sample_form "" []
                      {["Size" := {["S" := Int 1; "Small" := Int 1]}]})
                   _ (sample_field "Size" "checkbox" (Int 1)) _ []
                   {["S" := Int 1; "Small" := Int 1]} _ _ eq_refl _) _).
  - reflexivity.
  - by right.
  - vm_compute. reflexivity.
  - by exists "S".
Defined.

Lemma select_map_ignored_witness :
  exists shown,
    present map_to_list (sample_field "State" "text" (Str "CA")) []
      (sample_form "" [] {["State" := {["California" := Str "CA"]}]})
    = Returned (Some shown,
                sample_form "" [] {["State" := {["California" := Str "CA"]}]})
    /\ Field.Items shown = ∅ /\ Field.SelectValue shown = "".
Proof.
  eexists. split; [vm_compute; reflexivity|].
  refine (select_map_ignored map_to_list
            (sample_form "" [] {["State" := {["California" := Str "CA"]}]})
            _ (sample_field "State" "text" (Str "CA")) _ [] _ _).
  - left. split; discriminate.
  - vm_compute. reflexivity.
Defined.

Lemma Select_last_registration_wins_witness :
  (Select "State" {["California" := Str "CA"]}
   ≫= fun _ => Select "Size" {["Small" := Int 1]}) (sample_form "" [] ∅)
  = (Select "Size" {["Small" := Int 1]}
     ≫= fun _ => Select "State" {["California" := Str "CA"]}) (sample_form "" [] ∅).
Proof.
  refine (proj2 (Select_last_registration_wins (sample_form "" [] ∅) "State" "Size"
                   {["California" := Str "CA"]} {["Small" := Int 1]}) _).
  discriminate.
Defined.

Lemma Select_reaches_its_name_only_witness :
  (Select "State" {["California" := Str "CA"]}
   ≫= fun _ => present map_to_list (sample_field "Size" "select" (Int 1)) [])
    (sample_form "" [] {["Size" := {["Small" := Int 1]}]})
  = match present map_to_list (sample_field "Size" "select" (Int 1)) []
            (sample_form "" [] {["Size" := {["Small" := Int 1]}]})
    with
    | Returned (shown, _) =>
        Returned (shown,
                  Form.set_selectMap
                    (<["State" := {["California" := Str "CA"]}]>
                       {["Size" := {["Small" := Int 1]}]})
                    (sample_form "" [] {["Size" := {["Small" := Int 1]}]}))
    | Panicked why => Panicked why
    end.
Proof.
  refine (proj1 (Select_reaches_its_name_only map_to_list
                   (sample_form "" [] {["Size" := {["Small" := Int 1]}]})
                   (sample_field "Size" "select" (Int 1)) [] "State"
                   {["California" := Str "CA"]}) _).
  discriminate.
Defined.

Lemma readers_leave_the_form_witness :
  exists f',
    RenderBind (fun to from => (from, Some "copy failed"))
      (fun _ => Returned [sample_field "Name" "text" (Str "Ann")]) map_to_list
      (mkValue (TStruct []) (DStruct [])) (mkValue (TStruct []) (DStruct [])) []
      (sample_form "user." ["Address."] ∅)
    = Returned ("<input name=Name>", None, f')
    /\ f' = sample_form "user." ["Address."] ∅.
Proof.
  exists (sample_form "user." ["Address."] ∅).
  split; [vm_compute; reflexivity|].
  refine (proj1 (proj2 (readers_leave_the_form
            (fun to from => (from, Some "copy failed"))
            (fun _ => Returned [sample_field "Name" "text" (Str "Ann")])
            map_to_list (sample_form "user." ["Address."] ∅)
            (sample_form "user." ["Address."] ∅)))
            (mkValue (TStruct []) (DStruct [])) (mkValue (TStruct []) (DStruct []))
            [] ("<input name=Name>", None) _).
  vm_compute. reflexivity.
Defined.


Lemma Validate_then_present_witness :
  exists shown,
    Field.Errors shown = ["Invalid Length,needs: 2"; "Letters Only"].
Proof.
  eexists.
  refine (Validate_then_present map_to_list
            (sample_validating_form
               (Some (ValidationErrors
                        [FieldError.mk "State" (Str "C4L") "len" "2";
                         FieldError.mk "Email" (Str "x") "email" "";
                         FieldError.mk "State" (Str "C4L") "alpha" ""])))
            _ (Validator.mk (fun _ =>
                 Some (ValidationErrors
                         [FieldError.mk "State" (Str "C4L") "len" "2";
                          FieldError.mk "Email" (Str "x") "email" "";
                          FieldError.mk "State" (Str "C4L") "alpha" ""])))
            (mkValue (TStruct []) (DStruct []))
            _ (sample_field "State" "text" (Str "C4L")) _ eq_refl eq_refl _).
  vm_compute. reflexivity.
Defined.

Lemma DecodePost_decodes_posts_only_witness :
  DecodePost (fun _ => ∅)
    (Some (Decoder.mk (fun holder _ => (holder, None))))
    (Request.mk "GET" "") (mkValue (TStruct []) (DStruct []))
  = (mkValue (TStruct []) (DStruct []), Some ErrInvalidMethod).
Proof.
  refine (proj1 (DecodePost_decodes_posts_only (fun _ => ∅)
                   (Some (Decoder.mk (fun holder _ => (holder, None))))
                   (Request.mk "GET" "") (mkValue (TStruct []) (DStruct []))) _).
  left. discriminate.
Defined.

Lemma New_result_witness :
  exists form,
    New "<input name={{.Name}}>" "" (fun _ => inl "{{.Label}}")
      (fun dir p => dir +:+ p) (fun _ => inl sample_template)
      (Validator.mk (fun _ => None)) ["basic.html"]
    = Returned (form, None)
    /\ exists text, (inl "{{.Label}}" : string + error) = inl text.
Proof.
  eexists. split; [reflexivity|].
  refine (proj1 (proj1 (proj1 (New_result "<input name={{.Name}}>" ""
                                 (fun _ => inl "{{.Label}}")
                                 (fun dir p => dir +:+ p)
                                 (fun _ => inl sample_template)
                                 (Validator.mk (fun _ => None)) ["basic.html"])
                          _ None eq_refl)) eq_refl).
Defined.
